(** * Constellation observability core: a shallow embedding of
    [src/core/observability.ts] and the properties of its specification.

    The class [Observability] is embedded method by method.  Strings are
    Rocq strings, optional JavaScript fields keep the difference between
    [undefined] and [null], the SQLite table is a list of rows in insertion
    order, and every source of nondeterminism ([Date.now()],
    [randomBytes], [new Date().toISOString()], an I/O fault of the storage
    engine) is an explicit reading handed to the call that consumes it. *)

From Stdlib Require Import NArith ZArith Ascii String List Sorted Lia Bool.
From stdpp Require Import base option gmap strings.
Import ListNotations.

Local Open Scope string_scope.
Set Warnings "-register-all".
#[local] Arguments String.append : simpl nomatch.

(** ** JavaScript string primitives *)

Module JsString.

(** [s.toUpperCase()] on ASCII text: the letters a-z move to A-Z. *)
Definition upper_char (c : ascii) : ascii :=
  let n := N_of_ascii c in
  if ((97 <=? n) && (n <=? 122))%N then ascii_of_N (n - 32) else c.

Fixpoint toUpperCase (s : string) : string :=
  match s with
  | EmptyString => EmptyString
  | String c r => String (upper_char c) (toUpperCase r)
  end.

(** [fill.repeat(n)] for a one character fill. *)
Fixpoint repeat_char (c : ascii) (n : nat) : string :=
  match n with
  | O => EmptyString
  | S k => String c (repeat_char c k)
  end.

(** [s.padStart(width, "0")]: nothing happens when [s] is already
    [width] long or longer. *)
Definition padStart (width : nat) (c : ascii) (s : string) : string :=
  repeat_char c (width - String.length s) +:+ s.

(** [s.substring(0, n)]. *)
Definition substring0 (n : nat) (s : string) : string := String.substring 0 n s.

(** Digits of [Number.prototype.toString(radix)] and of
    [Buffer.toString("hex")]: 0-9 then lowercase a-z. *)
Definition digit_char (d : N) : ascii :=
  if (d <? 10)%N then ascii_of_N (48 + d) else ascii_of_N (87 + d).

(** The digit loop of [n.toString(36)], least significant digit first,
    each digit pushed in front of the digits already produced. *)
Fixpoint radix36_loop (dg : N -> ascii) (fuel : nat) (n : N) (acc : string) : string :=
  match fuel with
  | O => acc
  | S f =>
      let acc' := String (dg (n mod 36)%N) acc in
      if (n / 36 =? 0)%N then acc' else radix36_loop dg f (n / 36)%N acc'
  end.

(** [n.toString(36)] for a non negative integer [n].  A number of [k]
    bits has at most [k] digits, so the fuel never runs out. *)
Definition toString36 (n : N) : string :=
  radix36_loop digit_char (S (N.size_nat n)) n EmptyString.

(** [buf.toString("hex")]: two lowercase hexadecimal digits per byte. *)
Fixpoint hex (bs : list Byte.byte) : string :=
  match bs with
  | [] => EmptyString
  | b :: r =>
      let n := Byte.to_N b in
      String (digit_char (n / 16)%N) (String (digit_char (n mod 16)%N) (hex r))
  end.

(** [parts.join(",")] on an array of strings. *)
Fixpoint join_comma (l : list string) : string :=
  match l with
  | [] => EmptyString
  | [a] => a
  | a :: r => a +:+ String "," (join_comma r)
  end.

(** [s.split(",")]: never empty, the empty string splits into [[""]]. *)
Fixpoint split_comma (s : string) : list string :=
  match s with
  | EmptyString => [EmptyString]
  | String c r =>
      if Ascii.eqb c "," then EmptyString :: split_comma r
      else match split_comma r with
           | [] => [String c EmptyString]
           | t :: ts => String c t :: ts
           end
  end.

(** [s.trim()]: white space is removed at both ends. *)
Definition is_space (c : ascii) : bool :=
  let n := N_of_ascii c in
  ((n =? 32) || ((9 <=? n) && (n <=? 13)))%N.

Fixpoint trim_start (s : string) : string :=
  match s with
  | EmptyString => EmptyString
  | String c r => if is_space c then trim_start r else s
  end.

Fixpoint trim_end (s : string) : string :=
  match s with
  | EmptyString => EmptyString
  | String c r =>
      match trim_end r with
      | EmptyString => if is_space c then EmptyString else String c EmptyString
      | r' => String c r'
      end
  end.

Definition trim (s : string) : string := trim_end (trim_start s).

(** The truthiness test [if (s)] on a string. *)
Definition truthy (s : string) : bool := negb (String.eqb s EmptyString).

(** The order of [<] on strings: code unit by code unit. *)
Definition lt (a b : string) : Prop := String.compare a b = Lt.

End JsString.

(** ** Identifier generation *)

(** What one call of [generateULID] reads from its environment. *)
Record IdReading := {
  date_now : N;                    (* Date.now() *)
  random_bytes : list Byte.byte    (* randomBytes(8) *)
}.

Definition generateULID (r : IdReading) : string :=
  let now := date_now r in
  let random := JsString.substring0 12 (JsString.hex (random_bytes r)) in
  JsString.padStart 26 "0" (JsString.toUpperCase (JsString.toString36 now +:+ random)).

(** ** JavaScript values *)

(** An optional field of an object: missing ([undefined]), [null], or set. *)
Inductive JsOpt (A : Type) : Type :=
  | js_undefined
  | js_null
  | js_val (a : A).
Arguments js_undefined {A}.
Arguments js_null {A}.
Arguments js_val {A} a.

(** An optional argument ([x?: T]) is either missing or set. *)
Definition of_option {A} (o : option A) : JsOpt A :=
  match o with
  | None => js_undefined
  | Some a => js_val a
  end.

(** The numbers that are not finite. *)
Inductive NonFinite := NaN | PositiveInfinity | NegativeInfinity.

(** Data of type [unknown]: the values JSON carries unchanged (null,
    booleans, finite numbers, strings, arrays, plain objects) and those
    [JSON.stringify] changes or leaves out.  A finite number is an integer
    ([JsNumber]) or a fraction ([JsFraction]); negative zero is apart.  Of
    the objects only a Date has a [toJSON] method.  A BigInt and a value
    that contains itself, on which [JSON.stringify] throws, are not values
    of this type. *)
Inductive JsValue : Type :=
  | JsUndefined
  | JsNull
  | JsBool (b : bool)
  | JsNumber (z : Z)
  | JsString (s : string)
  | JsArray (items : list JsValue)
  | JsObject (props : list (string * JsValue))
  | JsFraction (num : Z) (den : positive)   (* num / den, a finite number *)
  | JsNonFinite (x : NonFinite)
  | JsNegativeZero
  | JsDate (iso : string)                   (* a valid Date; toISOString() is [iso] *)
  | JsFunction.                             (* a function or a symbol *)

(** [Record<string, unknown>]: properties in insertion order. *)
Abbreviation JsRecord := (list (string * JsValue)).

Definition js_string_opt (o : option string) : JsValue :=
  match o with
  | None => JsUndefined
  | Some s => JsString s
  end.

Definition js_strings (l : list string) : JsValue := JsArray (map JsString l).

(** [obj.k = v]: an existing property keeps its place, a new one is added
    at the end. *)
Fixpoint set_prop (k : string) (v : JsValue) (o : JsRecord) : JsRecord :=
  match o with
  | [] => [(k, v)]
  | (k', v') :: r => if String.eqb k k' then (k, v) :: r else (k', v') :: set_prop k v r
  end.

(** ** JSON *)

(** The document a JSON text denotes.  The [data] column holds the text
    [JSON.stringify] produced, and [JSON.parse] of that text gives back the
    document, so the column is represented by the document itself. *)
Inductive Json : Type :=
  | JNull
  | JBool (b : bool)
  | JNumber (z : Z)
  | JString (s : string)
  | JArray (items : list Json)
  | JObject (members : list (string * Json))
  | JFraction (num : Z) (den : positive).

(** [JSON.stringify(v)]: [None] stands for the result [undefined].  A
    property whose value is [undefined], a function or a symbol is left out
    of an object, and such an element of an array is written as [null].
    [NaN] and the infinities are written as [null], negative zero as [0],
    and a Date as the text [toJSON()] gives. *)
Fixpoint JSON_stringify (v : JsValue) : option Json :=
  match v with
  | JsUndefined => None
  | JsNull => Some JNull
  | JsBool b => Some (JBool b)
  | JsNumber z => Some (JNumber z)
  | JsString s => Some (JString s)
  | JsFraction num den => Some (JFraction num den)
  | JsNonFinite _ => Some JNull
  | JsNegativeZero => Some (JNumber 0)
  | JsDate iso => Some (JString iso)
  | JsFunction => None
  | JsArray items =>
      Some (JArray (map (fun x => match JSON_stringify x with
                                  | Some j => j
                                  | None => JNull
                                  end) items))
  | JsObject props =>
      Some (JObject
        ((fix members (ps : list (string * JsValue)) : list (string * Json) :=
            match ps with
            | [] => []
            | (k, x) :: r =>
                match JSON_stringify x with
                | Some j => (k, j) :: members r
                | None => members r
                end
            end) props))
  end.

(** [JSON.parse(text)] on the document of the text. *)
Fixpoint JSON_parse (j : Json) : JsValue :=
  match j with
  | JNull => JsNull
  | JBool b => JsBool b
  | JNumber z => JsNumber z
  | JString s => JsString s
  | JFraction num den => JsFraction num den
  | JArray items => JsArray (map JSON_parse items)
  | JObject ms =>
      JsObject
        ((fix props (l : list (string * Json)) : list (string * JsValue) :=
            match l with
            | [] => []
            | (k, x) :: r => (k, JSON_parse x) :: props r
            end) ms)
  end.

(** The member [k] of a JSON object, if the document is an object that
    has one. *)
Fixpoint json_member_list (k : string) (ms : list (string * Json)) : option Json :=
  match ms with
  | [] => None
  | (k', v) :: r => if String.eqb k k' then Some v else json_member_list k r
  end.

Definition json_member (k : string) (j : Json) : option Json :=
  match j with
  | JObject ms => json_member_list k ms
  | _ => None
  end.

(** Plain JSON data: null, booleans, finite numbers other than negative
    zero, strings, and arrays and objects of these; so no [undefined],
    function, symbol, [NaN], infinity, negative zero or Date anywhere
    inside. *)
Fixpoint json_clean (v : JsValue) : bool :=
  match v with
  | JsUndefined => false
  | JsNonFinite _ => false
  | JsNegativeZero => false
  | JsDate _ => false
  | JsFunction => false
  | JsArray items => forallb json_clean items
  | JsObject props =>
      (fix all (ps : list (string * JsValue)) : bool :=
         match ps with
         | [] => true
         | (_, x) :: r => json_clean x && all r
         end) props
  | _ => true
  end.

(** ** The event envelope *)

Record Machine := {
  machine_id : string;
  machine_hostname : JsOpt string
}.

Record Context := {
  context_session_id : JsOpt string;
  context_actor : JsOpt string;
  context_phase : JsOpt string
}.

Record EventInfo := {
  event_kind : string;
  event_tags : JsOpt (list string)
}.

Record Source := {
  source_component : string;
  source_version : JsOpt string
}.

Record Parent := {
  parent_event_id : JsOpt string;
  parent_trace_id : JsOpt string;
  parent_span_id : JsOpt string
}.

Record OmniEvent := {
  schema_version : string;
  ts : string;
  event_id : string;
  machine : Machine;
  context : Context;
  event : EventInfo;
  source : Source;
  data : JsValue;
  parent : option Parent
}.

Record QueryFilters := {
  filter_kind : option string;
  filter_session_id : option string;
  filter_machine_id : option string;
  filter_start_ts : option string;
  filter_end_ts : option string;
  filter_limit : option Z;
  filter_offset : option Z
}.

(** ** Failures and effects *)

Inductive Error : Type :=
  | SqliteConstraintPrimaryKey     (* UNIQUE constraint failed: events.event_id *)
  | SqliteConstraintNotNull        (* NOT NULL constraint failed *)
  | SqliteSyntaxError (near : string)
  | SqliteMisuse                   (* wrong number or type of bound values *)
  | SqliteFault (msg : string)     (* disk full, I/O error, corrupt file, ... *)
  | SqliteCantOpen
  | FsNoEntry.                     (* ENOENT from writeFileSync *)

Inductive Result (A : Type) : Type :=
  | Ok (a : A)
  | Throw (e : Error).
Arguments Ok {A} a.
Arguments Throw {A} e.

(** A call that may throw and that acts on a state of type [S]; the state
    after the call is there whether it threw or not. *)
Definition Eff (S A : Type) : Type := S -> Result A * S.

Definition eff_ret {S A} (a : A) : Eff S A := fun s => (Ok a, s).

Definition eff_bind {S A B} (m : Eff S A) (k : A -> Eff S B) : Eff S B :=
  fun s =>
    match m s with
    | (Ok a, s') => k a s'
    | (Throw e, s') => (Throw e, s')
    end.

Notation "'let!' x ':=' m 'in' k" := (eff_bind m (fun x => k))
  (at level 10, x name, m at level 100, k at level 200).

(** ** The SQLite table [events] *)

(** One row of [events]; [None] is SQL NULL.  The columns declared NOT
    NULL have no NULL.  The column [created_at] is filled by the engine
    and never read back, so it is not kept. *)
Record Row := {
  row_schema_version : string;
  row_ts : string;
  row_event_id : string;
  row_machine_id : string;
  row_machine_hostname : option string;
  row_context_session_id : option string;
  row_context_actor : option string;
  row_context_phase : option string;
  row_event_kind : string;
  row_event_tags : option string;
  row_source_component : string;
  row_source_version : option string;
  row_data : Json;
  row_parent_event_id : option string;
  row_parent_trace_id : option string;
  row_parent_span_id : option string
}.

(** The table in insertion order, and the number of INSERT statements
    that were run against it (a ghost counter that makes retries visible). *)
Record Database := {
  rows : list Row;
  inserts_run : nat
}.

Definition count_insert (d : Database) : Database :=
  {| rows := rows d; inserts_run := S (inserts_run d) |}.

(** [stmt.run(...)] of the INSERT statement.  [bound] is [None] when a
    NOT NULL column was bound to NULL; [fault] is the I/O fault the engine
    meets during this statement, if any.  The insert is atomic: the row is
    appended on success and the table is untouched on failure. *)
Definition stmt_run_insert (fault : option string) (bound : option Row) : Eff Database unit :=
  fun d =>
    match fault with
    | Some msg => (Throw (SqliteFault msg), count_insert d)
    | None =>
        match bound with
        | None => (Throw SqliteConstraintNotNull, count_insert d)
        | Some r =>
            if existsb (String.eqb (row_event_id r)) (map row_event_id (rows d))
            then (Throw SqliteConstraintPrimaryKey, count_insert d)
            else (Ok tt, {| rows := (rows d ++ [r])%list; inserts_run := S (inserts_run d) |})
        end
    end.

(** The columns the query engine compares. *)
Inductive Column := ColEventKind | ColContextSessionId | ColMachineId | ColTs.

Inductive CmpOp := OpEq | OpGe | OpLe.

(** The pieces of SQL text [queryEvents] puts together. *)
Inductive SqlFragment :=
  | SelectAllWhereTrue
  | AndCmp (c : Column) (op : CmpOp)
  | OrderByTsDesc
  | LimitParam
  | OffsetParam.

Definition column_name (c : Column) : string :=
  match c with
  | ColEventKind => "event_kind"
  | ColContextSessionId => "context_session_id"
  | ColMachineId => "machine_id"
  | ColTs => "ts"
  end.

Definition op_text (op : CmpOp) : string :=
  match op with
  | OpEq => "="
  | OpGe => ">="
  | OpLe => "<="
  end.

Definition fragment_text (f : SqlFragment) : string :=
  match f with
  | SelectAllWhereTrue => "SELECT * FROM events WHERE 1=1"
  | AndCmp c op => " AND " +:+ column_name c +:+ " " +:+ op_text op +:+ " ?"
  | OrderByTsDesc => " ORDER BY ts DESC"
  | LimitParam => " LIMIT ?"
  | OffsetParam => " OFFSET ?"
  end.

(** The text of the whole query. *)
Definition sql_text (q : list SqlFragment) : string :=
  fold_right (fun f acc => fragment_text f +:+ acc) EmptyString q.

Inductive SqlValue :=
  | SqlText (s : string)
  | SqlInteger (z : Z).

(** A prepared SELECT over [events]. *)
Record SelectStmt := {
  select_conds : list (Column * CmpOp);
  select_ordered : bool;
  select_limit : bool;
  select_offset : bool
}.

Fixpoint parse_conds (q : list SqlFragment) : list (Column * CmpOp) * list SqlFragment :=
  match q with
  | AndCmp c op :: r => let (cs, rest) := parse_conds r in ((c, op) :: cs, rest)
  | _ => ([], q)
  end.

(** The first keyword of a fragment, as SQLite names it in
    [near "...": syntax error]. *)
Definition fragment_keyword (f : SqlFragment) : string :=
  match f with
  | SelectAllWhereTrue => "SELECT"
  | AndCmp _ _ => "AND"
  | OrderByTsDesc => "ORDER"
  | LimitParam => "LIMIT"
  | OffsetParam => "OFFSET"
  end.

(** The end of a SELECT in SQLite's grammar: an optional ORDER BY, then
    an optional [LIMIT expr], and [OFFSET expr] only right after a LIMIT.
    The result tells which of the three clauses are there; any other text
    is a syntax error at the first fragment that does not fit. *)
Definition parse_tail (q : list SqlFragment) : Result (bool * bool * bool) :=
  let (ordered, rest) :=
    match q with
    | OrderByTsDesc :: r => (true, r)
    | _ => (false, q)
    end in
  match rest with
  | [] => Ok (ordered, false, false)
  | [LimitParam] => Ok (ordered, true, false)
  | [LimitParam; OffsetParam] => Ok (ordered, true, true)
  | LimitParam :: OffsetParam :: f :: _ => Throw (SqliteSyntaxError (fragment_keyword f))
  | LimitParam :: f :: _ => Throw (SqliteSyntaxError (fragment_keyword f))
  | f :: _ => Throw (SqliteSyntaxError (fragment_keyword f))
  end.

(** [db.prepare(query)]. *)
Definition sqlite_prepare (q : list SqlFragment) : Result SelectStmt :=
  match q with
  | SelectAllWhereTrue :: r =>
      let (cs, rest) := parse_conds r in
      match parse_tail rest with
      | Ok (ordered, limited, skipping) =>
          Ok {| select_conds := cs; select_ordered := ordered;
                select_limit := limited; select_offset := skipping |}
      | Throw e => Throw e
      end
  | f :: _ => Throw (SqliteSyntaxError (fragment_keyword f))
  | [] => Throw (SqliteSyntaxError EmptyString)
  end.

Definition column_value (c : Column) (r : Row) : option string :=
  match c with
  | ColEventKind => Some (row_event_kind r)
  | ColContextSessionId => row_context_session_id r
  | ColMachineId => Some (row_machine_id r)
  | ColTs => Some (row_ts r)
  end.

(** Text comparison under the BINARY collation. *)
Definition cmp_holds (op : CmpOp) (a b : string) : bool :=
  match op with
  | OpEq => String.eqb a b
  | OpGe => String.leb b a
  | OpLe => String.leb a b
  end.

(** A comparison with NULL is not true, so the row is not selected. *)
Definition cond_holds (c : Column) (op : CmpOp) (p : string) (r : Row) : bool :=
  match column_value c r with
  | None => false
  | Some v => cmp_holds op v p
  end.

(** The conditions of the WHERE clause take the first bound values, in
    order; what is left is for LIMIT and OFFSET. *)
Fixpoint bind_conds (cs : list (Column * CmpOp)) (ps : list SqlValue)
  : option (list (Row -> bool) * list SqlValue) :=
  match cs with
  | [] => Some ([], ps)
  | (c, op) :: cs' =>
      match ps with
      | SqlText p :: ps' =>
          match bind_conds cs' ps' with
          | Some (fs, rest) => Some (cond_holds c op p :: fs, rest)
          | None => None
          end
      | _ => None
      end
  end.

(** ORDER BY ts DESC, as a stable insertion sort: rows with the same
    [ts] stay in insertion order (SQLite leaves their order open). *)
Fixpoint insert_by_ts_desc (r : Row) (l : list Row) : list Row :=
  match l with
  | [] => [r]
  | x :: t =>
      if String.leb (row_ts x) (row_ts r) then r :: l
      else x :: insert_by_ts_desc r t
  end.

Definition order_by_ts_desc (l : list Row) : list Row :=
  fold_right insert_by_ts_desc [] l.

(** LIMIT n: a negative [n] means no bound.  The number bound is taken to
    be an integer the engine accepts; a fraction, or a number of 2^63 and
    more, which the engine refuses with a datatype mismatch, has no case. *)
Definition sql_limit (n : Z) (l : list Row) : list Row :=
  if (n <? 0)%Z then l else firstn (Z.to_nat n) l.

(** OFFSET n: a negative [n] skips nothing. *)
Definition sql_offset (n : Z) (l : list Row) : list Row := skipn (Z.to_nat n) l.

(** [stmt.all(...params)].  Without an ORDER BY the rows come in the
    order of the table. *)
Definition stmt_all (st : SelectStmt) (params : list SqlValue) (d : Database)
  : Result (list Row) :=
  match bind_conds (select_conds st) params with
  | None => Throw SqliteMisuse
  | Some (fs, rest) =>
      let found := List.filter (fun r => forallb (fun f => f r) fs) (rows d) in
      let selected := if select_ordered st then order_by_ts_desc found else found in
      match select_limit st, select_offset st, rest with
      | false, false, [] => Ok selected
      | true, false, [SqlInteger n] => Ok (sql_limit n selected)
      | true, true, [SqlInteger n; SqlInteger o] => Ok (sql_limit n (sql_offset o selected))
      | _, _, _ => Throw SqliteMisuse
      end
  end.

(** ** The class [Observability] *)

(** The fields of an instance; [db] is the path of the database file the
    handle was opened on. *)
Record Observability := {
  dataDir : string;
  machineIdFile : string;
  machineId : string;
  db : string
}.

(** What one write reads from its environment. *)
Record WriteReading := {
  iso_now : string;               (* new Date().toISOString() in createBaseEvent *)
  id_reading : IdReading;         (* Date.now() and randomBytes(8) in generateULID *)
  storage_fault : option string   (* the I/O fault met by stmt.run, if any *)
}.

(** [x || fallback] on an optional string. *)
Definition or_else (o : option string) (fallback : string) : string :=
  match o with
  | Some s => if JsString.truthy s then s else fallback
  | None => fallback
  end.

(** [if (x)] on an optional string. *)
Definition truthy_opt (o : option string) : bool :=
  match o with
  | Some s => JsString.truthy s
  | None => false
  end.

(** A value bound to a statement: [undefined] and [null] are both bound
    as NULL. *)
Definition bind_text (o : JsOpt string) : option string :=
  match o with
  | js_val s => Some s
  | _ => None
  end.

(** A column read back: NULL comes back as [null]. *)
Definition column_text (o : option string) : JsOpt string :=
  match o with
  | Some s => js_val s
  | None => js_null
  end.

(** [event.event.tags?.join(",") || null] *)
Definition tags_column (tags : JsOpt (list string)) : option string :=
  match tags with
  | js_val l =>
      let joined := JsString.join_comma l in
      if JsString.truthy joined then Some joined else None
  | _ => None
  end.

(** [event.parent?.f] *)
Definition parent_field (f : Parent -> JsOpt string) (p : option Parent) : JsOpt string :=
  match p with
  | Some x => f x
  | None => js_undefined
  end.

(** The sixteen values [writeEventToDb] binds, as a row; [None] when
    [JSON.stringify(event.data)] is [undefined], which the NOT NULL column
    [data] refuses. *)
Definition bind_event (e : OmniEvent) : option Row :=
  match JSON_stringify (data e) with
  | None => None
  | Some doc =>
      Some {|
        row_schema_version := schema_version e;
        row_ts := ts e;
        row_event_id := event_id e;
        row_machine_id := machine_id (machine e);
        row_machine_hostname := bind_text (machine_hostname (machine e));
        row_context_session_id := bind_text (context_session_id (context e));
        row_context_actor := bind_text (context_actor (context e));
        row_context_phase := bind_text (context_phase (context e));
        row_event_kind := event_kind (event e);
        row_event_tags := tags_column (event_tags (event e));
        row_source_component := source_component (source e);
        row_source_version := bind_text (source_version (source e));
        row_data := doc;
        row_parent_event_id := bind_text (parent_field parent_event_id (parent e));
        row_parent_trace_id := bind_text (parent_field parent_trace_id (parent e));
        row_parent_span_id := bind_text (parent_field parent_span_id (parent e))
      |}
  end.

(** [this.db.prepare(INSERT ...)] on the open handle, then [stmt.run(...)]
    with the values of [bind_event].  The text of the statement is fixed, so
    the failures are those of [stmt.run].  A handle that was closed, and a
    payload on which [JSON.stringify] throws, end the call before the
    statement is run: an instance here is open and a [JsValue] can be
    serialised, so these two ends have no case. *)
Definition writeEventToDb (e : OmniEvent) (fault : option string) : Eff Database unit :=
  stmt_run_insert fault (bind_event e).

Record BaseOptions := {
  base_sessionId : option string;
  base_actor : option string;
  base_phase : option string;
  base_component : string;
  base_tags : option (list string);
  base_parentEventId : option string;
  base_parentTraceId : option string;
  base_parentSpanId : option string
}.

Definition createBaseEvent (this : Observability) (kind : string) (payload : JsValue)
    (options : BaseOptions) (rd : WriteReading) : OmniEvent :=
  {| schema_version := "1.0";
     ts := iso_now rd;
     event_id := generateULID (id_reading rd);
     machine := {| machine_id := machineId this; machine_hostname := js_undefined |};
     context := {| context_session_id := of_option (base_sessionId options);
                   context_actor := of_option (base_actor options);
                   context_phase := of_option (base_phase options) |};
     event := {| event_kind := kind; event_tags := of_option (base_tags options) |};
     source := {| source_component := base_component options;
                  source_version := js_undefined |};
     data := payload;
     parent := Some {| parent_event_id := of_option (base_parentEventId options);
                       parent_trace_id := of_option (base_parentTraceId options);
                       parent_span_id := of_option (base_parentSpanId options) |} |}.

Record WriteOptions := {
  sessionId : option string;
  actor : option string;
  phase : option string;
  component : option string;
  tags : option (list string);
  parentEventId : option string;
  parentTraceId : option string;
  parentSpanId : option string
}.

(** [{ ...options, component: options.component || "constellation" }] *)
Definition with_component (options : WriteOptions) : BaseOptions :=
  {| base_sessionId := sessionId options;
     base_actor := actor options;
     base_phase := phase options;
     base_component := or_else (component options) "constellation";
     base_tags := tags options;
     base_parentEventId := parentEventId options;
     base_parentTraceId := parentTraceId options;
     base_parentSpanId := parentSpanId options |}.

(** The generic writer. *)
Definition writeEvent (this : Observability) (kind : string) (payload : JsValue)
    (options : WriteOptions) (rd : WriteReading) : Eff Database string :=
  let e := createBaseEvent this kind payload (with_component options) rd in
  let! _ := writeEventToDb e (storage_fault rd) in
  eff_ret (event_id e).

(** ** The typed writers *)

(** The three parent links every typed writer accepts among its options. *)
Record ParentLinks := {
  link_parentEventId : option string;
  link_parentTraceId : option string;
  link_parentSpanId : option string
}.

(** The options object a typed writer hands to [writeEvent]. *)
Definition typed_options (session : option string) (comp : string)
    (ph : option string) (tg : option (list string)) (links : ParentLinks) : WriteOptions :=
  {| sessionId := session;
     actor := None;
     phase := ph;
     component := Some comp;
     tags := tg;
     parentEventId := link_parentEventId links;
     parentTraceId := link_parentTraceId links;
     parentSpanId := link_parentSpanId links |}.

(** [if (v !== undefined) data.k = v] *)
Definition assign_defined (k : string) (v : JsValue) (o : JsRecord) : JsRecord :=
  match v with
  | JsUndefined => o
  | _ => set_prop k v o
  end.

(** [if (n !== undefined) data.k = n] for an optional number. *)
Definition assign_number (k : string) (n : option Z) (o : JsRecord) : JsRecord :=
  match n with
  | Some z => set_prop k (JsNumber z) o
  | None => o
  end.

(** [if (s) data.k = s] for an optional string. *)
Definition assign_truthy (k : string) (s : option string) (o : JsRecord) : JsRecord :=
  if truthy_opt s then set_prop k (js_string_opt s) o else o.

(** [if (x) data.k = x] for an optional object or array, which is truthy
    whenever it is there. *)
Definition assign_present (k : string) (x : option JsValue) (o : JsRecord) : JsRecord :=
  match x with
  | Some v => set_prop k v o
  | None => o
  end.

Inductive Phase := Before | After.

Definition phase_text (p : Phase) : string :=
  match p with
  | Before => "before"
  | After => "after"
  end.

Inductive AgentMode := Subagent | Primary.

Definition agent_mode_text (m : AgentMode) : string :=
  match m with
  | Subagent => "subagent"
  | Primary => "primary"
  end.

Inductive SpanStatus := Started | Completed | Failed.

Definition span_status_text (st : SpanStatus) : string :=
  match st with
  | Started => "started"
  | Completed => "completed"
  | Failed => "failed"
  end.

(** constellation:tool_execute *)
Record ToolExecuteOptions := {
  te_sessionId : option string;
  te_agent : option string;
  te_result : JsValue;
  te_duration_ms : option Z;
  te_error : option string;
  te_links : ParentLinks
}.

Definition writeToolExecute_data (toolName : string) (args : JsRecord) (ph : Phase)
    (options : ToolExecuteOptions) : JsRecord :=
  let payload :=
    [ ("tool_name", JsString toolName);
      ("args", JsObject args);
      ("context_session_id", js_string_opt (te_sessionId options));
      ("context_agent", js_string_opt (te_agent options));
      ("phase", JsString (phase_text ph)) ] in
  let payload :=
    match ph with
    | After =>
        assign_number "duration_ms" (te_duration_ms options)
          (assign_defined "result" (te_result options) payload)
    | Before => payload
    end in
  assign_truthy "error" (te_error options) payload.

Definition writeToolExecute (this : Observability) (toolName : string) (args : JsRecord)
    (ph : Phase) (options : ToolExecuteOptions) (rd : WriteReading) : Eff Database string :=
  writeEvent this "constellation:tool_execute"
    (JsObject (writeToolExecute_data toolName args ph options))
    (typed_options (te_sessionId options) "tool-executor" (Some (phase_text ph)) None
       (te_links options)) rd.

(** constellation:hook_fired *)
Record HookFiredOptions := {
  hf_sessionId : option string;
  hf_eventPayload : option JsRecord;
  hf_duration_ms : option Z;
  hf_links : ParentLinks
}.

Definition writeHookFired_data (hookName pluginName : string) (options : HookFiredOptions)
  : JsRecord :=
  let payload :=
    [ ("hook_name", JsString hookName);
      ("plugin_name", JsString pluginName);
      ("context_session_id", js_string_opt (hf_sessionId options)) ] in
  assign_number "duration_ms" (hf_duration_ms options)
    (assign_present "event_payload" (option_map JsObject (hf_eventPayload options)) payload).

Definition writeHookFired (this : Observability) (hookName pluginName : string)
    (options : HookFiredOptions) (rd : WriteReading) : Eff Database string :=
  writeEvent this "constellation:hook_fired"
    (JsObject (writeHookFired_data hookName pluginName options))
    (typed_options (hf_sessionId options) "hook-system" None None (hf_links options)) rd.

(** constellation:agent_spawned *)
Record AgentSpawnedOptions := {
  as_agentMode : option AgentMode;
  as_model : option string;
  as_toolsEnabled : option (list string);
  as_links : ParentLinks
}.

Definition writeAgentSpawned_data (agentName parentSessionId childSessionId : string)
    (options : AgentSpawnedOptions) : JsRecord :=
  let payload :=
    [ ("agent_name", JsString agentName);
      ("parent_session_id", JsString parentSessionId);
      ("child_session_id", JsString childSessionId);
      ("agent_mode", JsString (or_else (option_map agent_mode_text (as_agentMode options))
                                 "subagent")) ] in
  assign_present "tools_enabled" (option_map js_strings (as_toolsEnabled options))
    (assign_truthy "model" (as_model options) payload).

Definition writeAgentSpawned (this : Observability)
    (agentName parentSessionId childSessionId : string)
    (options : AgentSpawnedOptions) (rd : WriteReading) : Eff Database string :=
  writeEvent this "constellation:agent_spawned"
    (JsObject (writeAgentSpawned_data agentName parentSessionId childSessionId options))
    (typed_options (Some parentSessionId) "agent-manager" None None (as_links options)) rd.

(** constellation:skill_loaded *)
Record SkillLoadedOptions := {
  sl_sessionId : option string;
  sl_agent : option string;
  sl_links : ParentLinks
}.

Definition writeSkillLoaded_data (skillName skillPath : string) (options : SkillLoadedOptions)
  : JsRecord :=
  [ ("skill_name", JsString skillName);
    ("skill_path", JsString skillPath);
    ("context_session_id", js_string_opt (sl_sessionId options));
    ("context_agent", js_string_opt (sl_agent options)) ].

Definition writeSkillLoaded (this : Observability) (skillName skillPath : string)
    (options : SkillLoadedOptions) (rd : WriteReading) : Eff Database string :=
  writeEvent this "constellation:skill_loaded"
    (JsObject (writeSkillLoaded_data skillName skillPath options))
    (typed_options (sl_sessionId options) "skill-loader" None None (sl_links options)) rd.

(** constellation:command_executed *)
Record CommandExecutedOptions := {
  ce_sessionId : option string;
  ce_args : option (list string);
  ce_duration_ms : option Z;
  ce_result : option string;
  ce_links : ParentLinks
}.

Definition writeCommandExecuted_data (commandName : string) (options : CommandExecutedOptions)
  : JsRecord :=
  let payload :=
    [ ("command_name", JsString commandName);
      ("context_session_id", js_string_opt (ce_sessionId options)) ] in
  assign_truthy "result" (ce_result options)
    (assign_number "duration_ms" (ce_duration_ms options)
       (assign_present "args" (option_map js_strings (ce_args options)) payload)).

Definition writeCommandExecuted (this : Observability) (commandName : string)
    (options : CommandExecutedOptions) (rd : WriteReading) : Eff Database string :=
  writeEvent this "constellation:command_executed"
    (JsObject (writeCommandExecuted_data commandName options))
    (typed_options (ce_sessionId options) "command-runner" None None (ce_links options)) rd.

(** constellation:plugin_event *)
Record PluginEventOptions := {
  pe_sessionId : option string;
  pe_eventData : option JsRecord;
  pe_links : ParentLinks
}.

Definition writePluginEvent_data (pluginName eventType : string) (options : PluginEventOptions)
  : JsRecord :=
  let payload :=
    [ ("plugin_name", JsString pluginName);
      ("event_type", JsString eventType);
      ("context_session_id", js_string_opt (pe_sessionId options)) ] in
  assign_present "event_data" (option_map JsObject (pe_eventData options)) payload.

Definition writePluginEvent (this : Observability) (pluginName eventType : string)
    (options : PluginEventOptions) (rd : WriteReading) : Eff Database string :=
  writeEvent this "constellation:plugin_event"
    (JsObject (writePluginEvent_data pluginName eventType options))
    (typed_options (pe_sessionId options) "plugin-manager" None None (pe_links options)) rd.

(** error *)
Record ErrorOptions := {
  er_errorCode : option string;
  er_retryable : option bool;
  er_transient : option bool;
  er_sessionId : option string;
  er_toolName : option string;
  er_invariantsViolated : option (list string);
  er_rawOutput : option string;
  er_recoveryActions : option (list string);
  er_links : ParentLinks
}.

(** [b ?? false] *)
Definition bool_or_false (b : option bool) : bool :=
  match b with
  | Some x => x
  | None => false
  end.

Definition writeError_data (errorType message : string) (options : ErrorOptions) : JsRecord :=
  let payload :=
    [ ("error_type", JsString errorType);
      ("message", JsString message);
      ("context_session_id", js_string_opt (er_sessionId options));
      ("retryable", JsBool (bool_or_false (er_retryable options)));
      ("transient", JsBool (bool_or_false (er_transient options))) ] in
  assign_present "recovery_actions" (option_map js_strings (er_recoveryActions options))
    (assign_truthy "raw_output" (er_rawOutput options)
       (assign_present "invariants_violated"
          (option_map js_strings (er_invariantsViolated options))
          (assign_truthy "tool_name" (er_toolName options)
             (assign_truthy "error_code" (er_errorCode options) payload)))).

Definition writeError_options (errorType : string) (options : ErrorOptions) : WriteOptions :=
  typed_options (er_sessionId options) "error-handler" None (Some ["error"; errorType])
    (er_links options).

Definition writeError (this : Observability) (errorType message : string)
    (options : ErrorOptions) (rd : WriteReading) : Eff Database string :=
  writeEvent this "error"
    (JsObject (writeError_data errorType message options))
    (writeError_options errorType options) rd.

(** metric *)
Record MetricOptions := {
  me_sessionId : option string;
  me_dimensions : option JsRecord;
  me_links : ParentLinks
}.

Definition writeMetric_data (metricName : string) (value : Z) (unit_ : string)
    (options : MetricOptions) : JsRecord :=
  let payload :=
    [ ("metric_name", JsString metricName);
      ("value", JsNumber value);
      ("unit", JsString unit_);
      ("context_session_id", js_string_opt (me_sessionId options)) ] in
  assign_present "dimensions" (option_map JsObject (me_dimensions options)) payload.

Definition writeMetric (this : Observability) (metricName : string) (value : Z)
    (unit_ : string) (options : MetricOptions) (rd : WriteReading) : Eff Database string :=
  writeEvent this "metric"
    (JsObject (writeMetric_data metricName value unit_ options))
    (typed_options (me_sessionId options) "metrics" None None (me_links options)) rd.

(** span *)
Record SpanOptions := {
  sp_sessionId : option string;
  sp_parentSpanId : option string;
  sp_traceId : option string;
  sp_startTs : option string;
  sp_endTs : option string;
  sp_duration_ms : option Z;
  sp_parentEventId : option string;
  sp_parentTraceId : option string
}.

(** [span_now] is what [this.getCurrentTimestamp()] returns when the
    caller gave no start time. *)
Definition writeSpan_data (spanId name : string) (status : SpanStatus)
    (options : SpanOptions) (span_now : string) : JsRecord :=
  let payload :=
    [ ("span_id", JsString spanId);
      ("name", JsString name);
      ("status", JsString (span_status_text status));
      ("start_ts", JsString (or_else (sp_startTs options) span_now));
      ("context_session_id", js_string_opt (sp_sessionId options)) ] in
  assign_number "duration_ms" (sp_duration_ms options)
    (assign_truthy "end_ts" (sp_endTs options)
       (assign_truthy "trace_id" (sp_traceId options)
          (assign_truthy "parent_span_id" (sp_parentSpanId options) payload))).

Definition writeSpan (this : Observability) (spanId name : string) (status : SpanStatus)
    (options : SpanOptions) (span_now : string) (rd : WriteReading) : Eff Database string :=
  writeEvent this "span"
    (JsObject (writeSpan_data spanId name status options span_now))
    (typed_options (sp_sessionId options) "span-manager" None None
       {| link_parentEventId := sp_parentEventId options;
          link_parentTraceId := sp_parentTraceId options;
          link_parentSpanId := sp_parentSpanId options |}) rd.

(** session_start, session_end, session_summary *)
Record SessionStartOptions := {
  ss_agent : option string;
  ss_model : option string;
  ss_directory : option string;
  ss_parentSessionId : option string;
  ss_links : ParentLinks
}.

Definition writeSessionStart_data (session : string) (options : SessionStartOptions)
  : JsRecord :=
  let payload := [ ("session_id", JsString session) ] in
  assign_truthy "parent_session_id" (ss_parentSessionId options)
    (assign_truthy "directory" (ss_directory options)
       (assign_truthy "model" (ss_model options)
          (assign_truthy "agent" (ss_agent options) payload))).

Definition writeSessionStart (this : Observability) (session : string)
    (options : SessionStartOptions) (rd : WriteReading) : Eff Database string :=
  writeEvent this "session_start"
    (JsObject (writeSessionStart_data session options))
    (typed_options (Some session) "session-manager" None None (ss_links options)) rd.

Record SessionEndOptions := {
  se_duration_ms : option Z;
  se_messageCount : option Z;
  se_links : ParentLinks
}.

Definition writeSessionEnd_data (session : string) (options : SessionEndOptions) : JsRecord :=
  let payload := [ ("session_id", JsString session) ] in
  assign_number "message_count" (se_messageCount options)
    (assign_number "duration_ms" (se_duration_ms options) payload).

Definition writeSessionEnd (this : Observability) (session : string)
    (options : SessionEndOptions) (rd : WriteReading) : Eff Database string :=
  writeEvent this "session_end"
    (JsObject (writeSessionEnd_data session options))
    (typed_options (Some session) "session-manager" None None (se_links options)) rd.

Definition writeSessionSummary_data (session summary : string) : JsRecord :=
  [ ("session_id", JsString session); ("summary", JsString summary) ].

Definition writeSessionSummary (this : Observability) (session summary : string)
    (links : ParentLinks) (rd : WriteReading) : Eff Database string :=
  writeEvent this "session_summary"
    (JsObject (writeSessionSummary_data session summary))
    (typed_options (Some session) "session-manager" None None links) rd.

(** ** The query interface *)

(** [if (x) { query += frag; params.push(x) }] for a text filter. *)
Definition push_text (x : option string) (frag : SqlFragment)
    (qp : list SqlFragment * list SqlValue) : list SqlFragment * list SqlValue :=
  match x with
  | Some v => if JsString.truthy v then ((fst qp ++ [frag])%list, (snd qp ++ [SqlText v])%list) else qp
  | None => qp
  end.

(** The same for a number, which is falsy when it is 0. *)
Definition push_number (x : option Z) (frag : SqlFragment)
    (qp : list SqlFragment * list SqlValue) : list SqlFragment * list SqlValue :=
  match x with
  | Some n => if (n =? 0)%Z then qp else ((fst qp ++ [frag])%list, (snd qp ++ [SqlInteger n])%list)
  | None => qp
  end.

(** The query text and the bound values [queryEvents] builds. *)
Definition build_query (filters : QueryFilters) : list SqlFragment * list SqlValue :=
  let qp := ([SelectAllWhereTrue], []) in
  let qp := push_text (filter_kind filters) (AndCmp ColEventKind OpEq) qp in
  let qp := push_text (filter_session_id filters) (AndCmp ColContextSessionId OpEq) qp in
  let qp := push_text (filter_machine_id filters) (AndCmp ColMachineId OpEq) qp in
  let qp := push_text (filter_start_ts filters) (AndCmp ColTs OpGe) qp in
  let qp := push_text (filter_end_ts filters) (AndCmp ColTs OpLe) qp in
  let qp := ((fst qp ++ [OrderByTsDesc])%list, snd qp) in
  let qp := push_number (filter_limit filters) LimitParam qp in
  let qp := push_number (filter_offset filters) OffsetParam qp in
  qp.

(** [row.event_tags ? row.event_tags.split(",") : undefined] *)
Definition tags_of_column (c : option string) : JsOpt (list string) :=
  match c with
  | Some s => if JsString.truthy s then js_val (JsString.split_comma s) else js_undefined
  | None => js_undefined
  end.

(** The envelope built from a row. *)
Definition row_to_event (r : Row) : OmniEvent :=
  {| schema_version := row_schema_version r;
     ts := row_ts r;
     event_id := row_event_id r;
     machine := {| machine_id := row_machine_id r;
                   machine_hostname := column_text (row_machine_hostname r) |};
     context := {| context_session_id := column_text (row_context_session_id r);
                   context_actor := column_text (row_context_actor r);
                   context_phase := column_text (row_context_phase r) |};
     event := {| event_kind := row_event_kind r;
                 event_tags := tags_of_column (row_event_tags r) |};
     source := {| source_component := row_source_component r;
                  source_version := column_text (row_source_version r) |};
     data := JSON_parse (row_data r);
     parent := Some {| parent_event_id := column_text (row_parent_event_id r);
                       parent_trace_id := column_text (row_parent_trace_id r);
                       parent_span_id := column_text (row_parent_span_id r) |} |}.

Definition queryEvents (filters : QueryFilters) (d : Database) : Result (list OmniEvent) :=
  let (query, params) := build_query filters in
  match sqlite_prepare query with
  | Throw e => Throw e
  | Ok stmt =>
      match stmt_all stmt params d with
      | Throw e => Throw e
      | Ok selected => Ok (map row_to_event selected)
      end
  end.

(** ** Construction and the module level singleton *)

(** The part of the process and of the file system the module touches.
    An instance is referred to by its index in [heap]. *)
Record World := {
  env_MACHINE_ID : option string;        (* process.env.MACHINE_ID *)
  cwd : string;
  files : gmap string string;            (* text files, by absolute path *)
  creatable : string -> bool;            (* can a file be created at this path *)
  databases : gmap string Database;      (* SQLite files, by absolute path *)
  heap : list Observability;
  observabilityInstance : option nat     (* let observabilityInstance = null *)
}.

Definition set_files (fs : gmap string string) (w : World) : World :=
  {| env_MACHINE_ID := env_MACHINE_ID w; cwd := cwd w; files := fs;
     creatable := creatable w; databases := databases w; heap := heap w;
     observabilityInstance := observabilityInstance w |}.

Definition set_databases (ds : gmap string Database) (w : World) : World :=
  {| env_MACHINE_ID := env_MACHINE_ID w; cwd := cwd w; files := files w;
     creatable := creatable w; databases := ds; heap := heap w;
     observabilityInstance := observabilityInstance w |}.

Definition set_heap (h : list Observability) (w : World) : World :=
  {| env_MACHINE_ID := env_MACHINE_ID w; cwd := cwd w; files := files w;
     creatable := creatable w; databases := databases w; heap := h;
     observabilityInstance := observabilityInstance w |}.

Definition set_instance (i : option nat) (w : World) : World :=
  {| env_MACHINE_ID := env_MACHINE_ID w; cwd := cwd w; files := files w;
     creatable := creatable w; databases := databases w; heap := heap w;
     observabilityInstance := i |}.

(** [path.resolve(p)] and [path.resolve(dir, name)] for a relative
    [name]; dot segments are not rewritten. *)
Definition is_absolute (p : string) : bool :=
  match p with
  | String "/" _ => true
  | _ => false
  end.

Definition path_resolve (base p : string) : string :=
  if is_absolute p then p else base +:+ "/" +:+ p.

Definition existsSync (path : string) (w : World) : bool :=
  match files w !! path with
  | Some _ => true
  | None => false
  end.

Definition readFileSync (path : string) : Eff World string :=
  fun w =>
    match files w !! path with
    | Some content => (Ok content, w)
    | None => (Throw FsNoEntry, w)
    end.

Definition writeFileSync (path content : string) : Eff World unit :=
  fun w =>
    if existsSync path w || creatable w path
    then (Ok tt, set_files (<[path := content]> (files w)) w)
    else (Throw FsNoEntry, w).

(** [rnd] is what [randomBytes(3)] returns if it is called. *)
Definition initializeMachineId (idFile : string) (rnd : list Byte.byte) : Eff World string :=
  fun w =>
    let without_override :=
      if existsSync idFile w
      then let! content := readFileSync idFile in eff_ret (JsString.trim content)
      else
        let randomStr := JsString.substring0 6 (JsString.hex rnd) in
        let newMachineId := "constellation-" +:+ randomStr in
        let! _ := writeFileSync idFile newMachineId in eff_ret newMachineId in
    match env_MACHINE_ID w with
    | Some v => if JsString.truthy v then eff_ret v w else without_override w
    | None => without_override w
    end.

(** [new Database(path)] followed by [initializeSchema()]: the file is
    created when it is not there, and [CREATE TABLE IF NOT EXISTS] leaves
    an existing table as it is.  The file created is an entry of
    [databases]: the files on disk are the entries of [files] and those of
    [databases] together. *)
Definition open_database (path : string) : Eff World unit :=
  fun w =>
    match databases w !! path with
    | Some _ => (Ok tt, w)
    | None =>
        if creatable w path
        then (Ok tt, set_databases (<[path := {| rows := []; inserts_run := 0 |}]> (databases w)) w)
        else (Throw SqliteCantOpen, w)
    end.

(** [new Observability(dataDir)]: the reference of the new instance. *)
Definition new_Observability (dir : string) (rnd : list Byte.byte) : Eff World nat :=
  fun w =>
    let resolved := path_resolve (cwd w) dir in
    let idFile := path_resolve resolved ".machine_id" in
    let dbFile := path_resolve resolved "observability.db" in
    (let! mid := initializeMachineId idFile rnd in
     let! _ := open_database dbFile in
     fun w' =>
       (Ok (List.length (heap w')),
        set_heap (heap w' ++ [{| dataDir := resolved; machineIdFile := idFile;
                                 machineId := mid; db := dbFile |}])%list w')) w.

(** A missing [dataDir] argument takes the default ["data"]. *)
Definition initializeObservability (dir : option string) (rnd : list Byte.byte)
  : Eff World nat :=
  fun w =>
    match observabilityInstance w with
    | Some ref => (Ok ref, w)
    | None =>
        match new_Observability (default "data" dir) rnd w with
        | (Ok ref, w') => (Ok ref, set_instance (Some ref) w')
        | (Throw e, w') => (Throw e, w')
        end
    end.

Definition getObservability (rnd : list Byte.byte) : Eff World nat :=
  fun w =>
    match observabilityInstance w with
    | Some ref => (Ok ref, w)
    | None =>
        match new_Observability "data" rnd w with
        | (Ok ref, w') => (Ok ref, set_instance (Some ref) w')
        | (Throw e, w') => (Throw e, w')
        end
    end.

(** A run of calls to [initializeObservability], one per element. *)
Fixpoint initialize_many (calls : list (option string * list Byte.byte)) (w : World)
  : list (Result nat) * World :=
  match calls with
  | [] => ([], w)
  | (dir, rnd) :: rest =>
      let (res, w') := initializeObservability dir rnd w in
      let (others, w'') := initialize_many rest w' in
      (res :: others, w'')
  end.

(** ** Quantifying over the typed writers *)

(** One call of a typed writer with its arguments. *)
Inductive WriterCall : Type :=
  | CallToolExecute (toolName : string) (args : JsRecord) (ph : Phase)
      (options : ToolExecuteOptions)
  | CallHookFired (hookName pluginName : string) (options : HookFiredOptions)
  | CallAgentSpawned (agentName parentSessionId childSessionId : string)
      (options : AgentSpawnedOptions)
  | CallSkillLoaded (skillName skillPath : string) (options : SkillLoadedOptions)
  | CallCommandExecuted (commandName : string) (options : CommandExecutedOptions)
  | CallPluginEvent (pluginName eventType : string) (options : PluginEventOptions)
  | CallError (errorType message : string) (options : ErrorOptions)
  | CallMetric (metricName : string) (value : Z) (unit_ : string) (options : MetricOptions)
  | CallSpan (spanId name : string) (status : SpanStatus) (options : SpanOptions)
      (span_now : string)
  | CallSessionStart (session : string) (options : SessionStartOptions)
  | CallSessionEnd (session : string) (options : SessionEndOptions)
  | CallSessionSummary (session summary : string) (links : ParentLinks).

Definition run_writer (this : Observability) (c : WriterCall) (rd : WriteReading)
  : Eff Database string :=
  match c with
  | CallToolExecute n a ph o => writeToolExecute this n a ph o rd
  | CallHookFired h p o => writeHookFired this h p o rd
  | CallAgentSpawned a ps cs o => writeAgentSpawned this a ps cs o rd
  | CallSkillLoaded n pth o => writeSkillLoaded this n pth o rd
  | CallCommandExecuted n o => writeCommandExecuted this n o rd
  | CallPluginEvent p t o => writePluginEvent this p t o rd
  | CallError t m o => writeError this t m o rd
  | CallMetric n v u o => writeMetric this n v u o rd
  | CallSpan i n st o now => writeSpan this i n st o now rd
  | CallSessionStart sid o => writeSessionStart this sid o rd
  | CallSessionEnd sid o => writeSessionEnd this sid o rd
  | CallSessionSummary sid sm l => writeSessionSummary this sid sm l rd
  end.


(** The [sessionId] option of a call, for the writers that have one. *)
Definition call_sessionId (c : WriterCall) : option string :=
  match c with
  | CallToolExecute _ _ _ o => te_sessionId o
  | CallHookFired _ _ o => hf_sessionId o
  | CallSkillLoaded _ _ o => sl_sessionId o
  | CallCommandExecuted _ o => ce_sessionId o
  | CallPluginEvent _ _ o => pe_sessionId o
  | CallError _ _ o => er_sessionId o
  | CallMetric _ _ _ o => me_sessionId o
  | CallSpan _ _ _ o _ => sp_sessionId o
  | _ => None
  end.


(** The members [JSON.stringify] writes for the properties of an object. *)
Definition stringify_members : list (string * JsValue) -> list (string * Json) :=
  fix members (ps : list (string * JsValue)) : list (string * Json) :=
    match ps with
    | [] => []
    | (k, x) :: r =>
        match JSON_stringify x with
        | Some j => (k, j) :: members r
        | None => members r
        end
    end.

(** The properties [JSON.parse] builds for the members of an object. *)
Definition parse_members : list (string * Json) -> list (string * JsValue) :=
  fix props (l : list (string * Json)) : list (string * JsValue) :=
    match l with
    | [] => []
    | (k, x) :: r => (k, JSON_parse x) :: props r
    end.

(** An element of an array as [JSON.stringify] writes it. *)
Definition stringify_element (x : JsValue) : Json :=
  match JSON_stringify x with
  | Some j => j
  | None => JNull
  end.

(** The test of [json_clean] on the properties of an object. *)
Definition clean_props : list (string * JsValue) -> bool :=
  fix all (ps : list (string * JsValue)) : bool :=
    match ps with
    | [] => true
    | (_, x) :: r => json_clean x && all r
    end.

(** ** Runs of the identifier generator *)

(** The identifiers of successive calls, one reading per call. *)
Definition generate_all (readings : list IdReading) : list string :=
  map generateULID readings.

(** Every identifier is smaller than all the later ones. *)
Definition strictly_increasing (ids : list string) : Prop :=
  StronglySorted JsString.lt ids.

(** The largest time value a JavaScript Date can hold, in milliseconds. *)
Definition max_time_value : N := 8640000000000000.

(** ** Auxiliary definitions for the proofs *)

(** The digits of [n] in base 36 on exactly [w] places, most significant
    first, in front of [acc]. *)
Fixpoint fixed36 (dg : N -> ascii) (w : nat) (n : N) (acc : string) : string :=
  match w with
  | O => acc
  | S w' => fixed36 dg w' (n / 36)%N (String (dg (n mod 36)%N) acc)
  end.

(** An uppercase digit. *)
Definition upper_digit (d : N) : ascii := JsString.upper_char (JsString.digit_char d).

(** The random part of an identifier, as it appears in it. *)
Definition random_part (r : IdReading) : string :=
  JsString.toUpperCase (JsString.substring0 12 (JsString.hex (random_bytes r))).

(** A reading [generateULID] can get: a time value and eight bytes. *)
Definition reading_ok (r : IdReading) : Prop :=
  (date_now r <= max_time_value)%N /\ List.length (random_bytes r) = 8%nat.

(** What a column bound from an optional field reads back as: a set
    value as itself, an unset one as [null]. *)
Definition null_if_unset (o : JsOpt string) : JsOpt string := column_text (bind_text o).

(** An envelope with every unset optional text field read as [null];
    kind, tags and data are left as they are. *)
Definition with_unset_as_null (e : OmniEvent) : OmniEvent :=
  {| schema_version := schema_version e;
     ts := ts e;
     event_id := event_id e;
     machine := {| machine_id := machine_id (machine e);
                   machine_hostname := null_if_unset (machine_hostname (machine e)) |};
     context := {| context_session_id := null_if_unset (context_session_id (context e));
                   context_actor := null_if_unset (context_actor (context e));
                   context_phase := null_if_unset (context_phase (context e)) |};
     event := event e;
     source := {| source_component := source_component (source e);
                  source_version := null_if_unset (source_version (source e)) |};
     data := data e;
     parent := Some {| parent_event_id := null_if_unset (parent_field parent_event_id (parent e));
                       parent_trace_id := null_if_unset (parent_field parent_trace_id (parent e));
                       parent_span_id := null_if_unset (parent_field parent_span_id (parent e)) |} |}.

Fixpoint comma_free (s : string) : bool :=
  match s with
  | EmptyString => true
  | String c r => negb (Ascii.eqb c ",") && comma_free r
  end.

(** The tags lists the flattened column gives back unchanged: no list at
    all, or tags without commas whose joined text is not empty. *)
Definition tags_survive (t : option (list string)) : bool :=
  match t with
  | None => true
  | Some l => JsString.truthy (JsString.join_comma l) && forallb comma_free l
  end.

Definition no_filters : QueryFilters :=
  {| filter_kind := None; filter_session_id := None; filter_machine_id := None;
     filter_start_ts := None; filter_end_ts := None;
     filter_limit := None; filter_offset := None |}.

(** A text filter is supplied when it is set to a non empty string: that
    is the test [if (filters.kind)] of the code. *)
Definition supplied (x : option string) : option string :=
  match x with
  | Some v => if JsString.truthy v then Some v else None
  | None => None
  end.

(** A number is supplied when it is set and is not 0. *)
Definition supplied_number (x : option Z) : option Z :=
  match x with
  | Some n => if (n =? 0)%Z then None else Some n
  | None => None
  end.

Definition holds_if_supplied (x : option string) (test : string -> bool) : bool :=
  match supplied x with
  | Some v => test v
  | None => true
  end.

(** The row satisfies every supplied filter. *)
Definition satisfies_filters (f : QueryFilters) (r : Row) : bool :=
  holds_if_supplied (filter_kind f) (fun k => String.eqb (row_event_kind r) k)
  && holds_if_supplied (filter_session_id f)
       (fun sid => match row_context_session_id r with
                   | Some v => String.eqb v sid
                   | None => false
                   end)
  && holds_if_supplied (filter_machine_id f) (fun m => String.eqb (row_machine_id r) m)
  && holds_if_supplied (filter_start_ts f) (fun t => String.leb t (row_ts r))
  && holds_if_supplied (filter_end_ts f) (fun t => String.leb (row_ts r) t).

(** The rows satisfying the filters, most recent first. *)
Definition matching_rows (f : QueryFilters) (d : Database) : list Row :=
  order_by_ts_desc (List.filter (satisfies_filters f) (rows d)).

(** ** Fixtures *)

Definition sample_instance : Observability :=
  {| dataDir := "/srv/data"; machineIdFile := "/srv/data/.machine_id";
     machineId := "constellation-a1b2c3"; db := "/srv/data/observability.db" |}.

Definition sample_reading (now : N) (iso : string) : WriteReading :=
  {| iso_now := iso;
     id_reading := {| date_now := now;
                      random_bytes := [Byte.x01; Byte.x23; Byte.x45; Byte.x67;
                                       Byte.x89; Byte.xab; Byte.xcd; Byte.xef] |};
     storage_fault := None |}.

Definition empty_database : Database := {| rows := []; inserts_run := 0 |}.

Definition plain_options : WriteOptions :=
  {| sessionId := None; actor := None; phase := None; component := None; tags := None;
     parentEventId := None; parentTraceId := None; parentSpanId := None |}.

Definition no_links : ParentLinks :=
  {| link_parentEventId := None; link_parentTraceId := None; link_parentSpanId := None |}.

Definition tagged_options (t : option (list string)) : WriteOptions :=
  {| sessionId := None; actor := None; phase := None; component := None; tags := t;
     parentEventId := None; parentTraceId := None; parentSpanId := None |}.

Definition with_limit (n : option Z) (f : QueryFilters) : QueryFilters :=
  {| filter_kind := filter_kind f; filter_session_id := filter_session_id f;
     filter_machine_id := filter_machine_id f; filter_start_ts := filter_start_ts f;
     filter_end_ts := filter_end_ts f; filter_limit := n; filter_offset := filter_offset f |}.

Definition with_offset (n : option Z) (f : QueryFilters) : QueryFilters :=
  {| filter_kind := filter_kind f; filter_session_id := filter_session_id f;
     filter_machine_id := filter_machine_id f; filter_start_ts := filter_start_ts f;
     filter_end_ts := filter_end_ts f; filter_limit := filter_limit f; filter_offset := n |}.

(** LIMIT and OFFSET as the query applies them, when SQLite accepts the
    text: the OFFSET clause can only follow a LIMIT clause. *)
Definition paginate (f : QueryFilters) (l : list Row) : Result (list Row) :=
  match supplied_number (filter_limit f), supplied_number (filter_offset f) with
  | None, None => Ok l
  | Some n, None => Ok (sql_limit n l)
  | Some n, Some o => Ok (sql_limit n (sql_offset o l))
  | None, Some _ => Throw (SqliteSyntaxError "OFFSET")
  end.

(** Ten stored events, one per second, inserted oldest first. *)
Definition fixture_row (second : string) : Row :=
  {| row_schema_version := "1.0";
     row_ts := "2024-01-01T00:00:0" +:+ second +:+ ".000Z";
     row_event_id := "EVENT" +:+ second;
     row_machine_id := "constellation-a1b2c3";
     row_machine_hostname := None;
     row_context_session_id := Some "S1";
     row_context_actor := None;
     row_context_phase := None;
     row_event_kind := "log";
     row_event_tags := None;
     row_source_component := "constellation";
     row_source_version := None;
     row_data := JObject [];
     row_parent_event_id := None;
     row_parent_trace_id := None;
     row_parent_span_id := None |}.

Definition ten_events : Database :=
  {| rows := map fixture_row ["0"; "1"; "2"; "3"; "4"; "5"; "6"; "7"; "8"; "9"];
     inserts_run := 10 |}.

Definition page (limit offset : option Z) : QueryFilters :=
  with_limit limit (with_offset offset no_filters).

(** The identifiers of the events a query returned. *)
Definition returned_ids (res : Result (list OmniEvent)) : Result (list string) :=
  match res with
  | Ok l => Ok (map event_id l)
  | Throw e => Throw e
  end.

(** The conditions a set of filters supplies, with the value each one
    compares to, in the order the query lists them. *)
Definition opt_cond (x : option string) (c : Column) (op : CmpOp)
  : list (Column * CmpOp * string) :=
  match supplied x with
  | Some v => [(c, op, v)]
  | None => []
  end.

Definition supplied_conds (f : QueryFilters) : list (Column * CmpOp * string) :=
  (opt_cond (filter_kind f) ColEventKind OpEq
   ++ opt_cond (filter_session_id f) ColContextSessionId OpEq
   ++ opt_cond (filter_machine_id f) ColMachineId OpEq
   ++ opt_cond (filter_start_ts f) ColTs OpGe
   ++ opt_cond (filter_end_ts f) ColTs OpLe)%list.

Definition cond_fragment (t : Column * CmpOp * string) : SqlFragment :=
  AndCmp (fst (fst t)) (snd (fst t)).

Definition cond_param (t : Column * CmpOp * string) : SqlValue := SqlText (snd t).

Definition cond_test (t : Column * CmpOp * string) : Row -> bool :=
  cond_holds (fst (fst t)) (snd (fst t)) (snd t).

Definition number_fragment (frag : SqlFragment) (x : option Z) : list SqlFragment :=
  match supplied_number x with
  | Some _ => [frag]
  | None => []
  end.

Definition number_param (x : option Z) : list SqlValue :=
  match supplied_number x with
  | Some n => [SqlInteger n]
  | None => []
  end.

(** A process started in [/srv] with nothing on disk yet. *)
Definition fresh_world (override : option string) : World :=
  {| env_MACHINE_ID := override;
     cwd := "/srv";
     files := ∅;
     creatable := fun _ => true;
     databases := ∅;
     heap := [];
     observabilityInstance := None |}.

Definition three_bytes : list Byte.byte := [Byte.x0a; Byte.x1b; Byte.x2c].

(** The world after the first [initializeObservability("logs")] of a
    fresh process. *)
Definition world_after_first_call : World :=
  snd (initializeObservability (Some "logs") three_bytes (fresh_world None)).

(** Events of two kinds in two sessions. *)
Definition mixed_row (id kind session second : string) : Row :=
  {| row_schema_version := "1.0";
     row_ts := "2024-01-01T00:00:0" +:+ second +:+ ".000Z";
     row_event_id := id;
     row_machine_id := "constellation-a1b2c3";
     row_machine_hostname := None;
     row_context_session_id := Some session;
     row_context_actor := None;
     row_context_phase := None;
     row_event_kind := kind;
     row_event_tags := None;
     row_source_component := "constellation";
     row_source_version := None;
     row_data := JObject [];
     row_parent_event_id := None;
     row_parent_trace_id := None;
     row_parent_span_id := None |}.

Definition mixed_events : Database :=
  {| rows := [ mixed_row "A" "metric" "S1" "1"; mixed_row "B" "error" "S1" "2";
               mixed_row "C" "metric" "S2" "3"; mixed_row "D" "span" "S2" "4";
               mixed_row "E" "metric" "S1" "5" ];
     inserts_run := 5 |}.

Definition kind_and_session (kind session : string) : QueryFilters :=
  {| filter_kind := Some kind; filter_session_id := Some session;
     filter_machine_id := None; filter_start_ts := None; filter_end_ts := None;
     filter_limit := None; filter_offset := None |}.

(** ** Further definitions: shapes of identifiers and of query results *)

(** Every character of the string passes the test. *)
Fixpoint string_forall (p : ascii -> bool) (s : string) : bool :=
  match s with
  | EmptyString => true
  | String c r => p c && string_forall p r
  end.

(** A decimal digit or an uppercase letter. *)
Definition is_upper_alnum (c : ascii) : bool :=
  let n := N_of_ascii c in
  (((48 <=? n) && (n <=? 57)) || ((65 <=? n) && (n <=? 90)))%N.

(** A lowercase hexadecimal digit. *)
Definition is_hex_lower (c : ascii) : bool :=
  let n := N_of_ascii c in
  (((48 <=? n) && (n <=? 57)) || ((97 <=? n) && (n <=? 102)))%N.

(** [getMachineId()] *)
Definition getMachineId (this : Observability) : string := machineId this.

(** Filters on the kind, the session and the machine at once. *)
Definition filters_for (kind session machine : option string) : QueryFilters :=
  {| filter_kind := kind; filter_session_id := session; filter_machine_id := machine;
     filter_start_ts := None; filter_end_ts := None;
     filter_limit := None; filter_offset := None |}.

(** The event [a] is not older than the event [b]. *)
Definition not_older (a b : OmniEvent) : Prop := String.leb (ts b) (ts a) = true.

(** The same for rows. *)
Definition row_not_older (a b : Row) : Prop := String.leb (row_ts b) (row_ts a) = true.

(** The identifiers stored in a table are pairwise distinct. *)
Definition primary_key_ok (d : Database) : Prop := NoDup (map row_event_id (rows d)).

(** The session a typed writer puts in the context of the envelope. *)
Definition call_context_session (c : WriterCall) : option string :=
  match c with
  | CallAgentSpawned _ parentSessionId _ _ => Some parentSessionId
  | CallSessionStart session _ => Some session
  | CallSessionEnd session _ => Some session
  | CallSessionSummary session _ _ => Some session
  | _ => call_sessionId c
  end.

(** The member of the data that names that session. *)
Definition call_session_field (c : WriterCall) : string :=
  match c with
  | CallAgentSpawned _ _ _ _ => "parent_session_id"
  | CallSessionStart _ _ => "session_id"
  | CallSessionEnd _ _ => "session_id"
  | CallSessionSummary _ _ _ => "session_id"
  | _ => "context_session_id"
  end.

(** The component name each typed writer passes to [writeEvent]. *)
Definition call_component (c : WriterCall) : string :=
  match c with
  | CallToolExecute _ _ _ _ => "tool-executor"
  | CallHookFired _ _ _ => "hook-system"
  | CallAgentSpawned _ _ _ _ => "agent-manager"
  | CallSkillLoaded _ _ _ => "skill-loader"
  | CallCommandExecuted _ _ => "command-runner"
  | CallPluginEvent _ _ _ => "plugin-manager"
  | CallError _ _ _ => "error-handler"
  | CallMetric _ _ _ _ => "metrics"
  | CallSpan _ _ _ _ _ => "span-manager"
  | CallSessionStart _ _ => "session-manager"
  | CallSessionEnd _ _ => "session-manager"
  | CallSessionSummary _ _ _ => "session-manager"
  end.

Definition not_space (c : ascii) : bool := negb (JsString.is_space c).

(** Two readings of one millisecond that differ in their last two random
    bytes only. *)
Definition reading_with_tail (b7 b8 : Byte.byte) : IdReading :=
  {| date_now := 1700000000000;
     random_bytes := [Byte.x01; Byte.x23; Byte.x45; Byte.x67; Byte.x89; Byte.xab; b7; b8] |}.

Definition sample_tool_options : ToolExecuteOptions :=
  {| te_sessionId := Some "S1"; te_agent := None;
     te_result := JsObject [("rows", JsNumber 10)];
     te_duration_ms := Some 45%Z; te_error := None; te_links := no_links |}.

Definition plain_error_options : ErrorOptions :=
  {| er_errorCode := None; er_retryable := None; er_transient := None;
     er_sessionId := None; er_toolName := None; er_invariantsViolated := None;
     er_rawOutput := None; er_recoveryActions := None; er_links := no_links |}.

(** A process whose data directory cannot be written. *)
Definition read_only_world : World :=
  {| env_MACHINE_ID := None;
     cwd := "/srv";
     files := ∅;
     creatable := fun _ => false;
     databases := ∅;
     heap := [];
     observabilityInstance := None |}.

(** A process restarted over a data directory that already holds an
    identity file and a database of ten events. *)
Definition restarted_world : World :=
  {| env_MACHINE_ID := None;
     cwd := "/srv";
     files := {[ "/srv/data/.machine_id" := "constellation-0a1b2c" ]};
     creatable := fun _ => true;
     databases := {[ "/srv/data/observability.db" := ten_events ]};
     heap := [];
     observabilityInstance := None |}.

(** [Number.MAX_SAFE_INTEGER]: up to it a JS number is the integer it
    stands for, sums are exact, and the engine binds it as that integer. *)
Definition MAX_SAFE_INTEGER : Z := 9007199254740991.

(** A path at which there is a file on disk, a text file or a SQLite
    file. *)
Definition on_disk (w : World) (p : string) : Prop :=
  is_Some (files w !! p) \/ is_Some (databases w !! p).

(** A process started with an override over a data directory that holds
    the identity file of an earlier run and no database yet. *)
Definition overridden_world : World :=
  {| env_MACHINE_ID := Some "box-7";
     cwd := "/srv";
     files := {[ "/srv/data/.machine_id" := "constellation-0a1b2c" ]};
     creatable := fun _ => true;
     databases := {[ "/srv/other/observability.db" := ten_events ]};
     heap := [];
     observabilityInstance := None |}.

(** An envelope with two tags. *)
Definition tagged_event : OmniEvent :=
  createBaseEvent sample_instance "log" (JsObject [])
    (with_component (tagged_options (Some ["a"; "b"])))
    (sample_reading 1700000000000 "2023-11-14T22:13:20.000Z").

(** Ten stored events and a reading whose identifier none of them has. *)
Definition write_on_ten_events : Result string * Database :=
  writeEvent sample_instance "log" (JsObject [("n", JsNumber 1)]) plain_options
    (sample_reading 1700000000000 "2023-11-14T22:13:20.000Z") ten_events.

(* ===================================================================== *)
(** * Properties *)
(* ===================================================================== *)

Section StringFacts.

Lemma append_assoc (a b c : string) : (a +:+ b) +:+ c = a +:+ (b +:+ c).
Proof. induction a as [|x a IH]; simpl; [reflexivity | now rewrite IH]. Qed.

Lemma append_empty_r (a : string) : a +:+ EmptyString = a.
Proof. induction a as [|x a IH]; simpl; [reflexivity | now rewrite IH]. Qed.

Lemma length_append (a b : string) :
  String.length (a +:+ b) = (String.length a + String.length b)%nat.
Proof. induction a as [|x a IH]; simpl; [reflexivity | now rewrite IH]. Qed.

Lemma toUpperCase_append (a b : string) :
  JsString.toUpperCase (a +:+ b) = JsString.toUpperCase a +:+ JsString.toUpperCase b.
Proof. induction a as [|x a IH]; simpl; [reflexivity | now rewrite IH]. Qed.

Lemma toUpperCase_length (a : string) :
  String.length (JsString.toUpperCase a) = String.length a.
Proof. induction a as [|x a IH]; simpl; [reflexivity | now rewrite IH]. Qed.

Lemma repeat_char_shift (c : ascii) (n : nat) (s : string) :
  JsString.repeat_char c n +:+ String c s = String c (JsString.repeat_char c n +:+ s).
Proof. induction n as [|n IH]; simpl; [reflexivity | now rewrite IH]. Qed.

Lemma ascii_compare_refl (c : ascii) : Ascii.compare c c = Eq.
Proof. unfold Ascii.compare. apply N.compare_refl. Qed.

Lemma compare_common_prefix (p a b : string) :
  String.compare (p +:+ a) (p +:+ b) = String.compare a b.
Proof.
  induction p as [|c p IH]; simpl; [reflexivity|].
  now rewrite ascii_compare_refl.
Qed.

End StringFacts.

Section Base36.

Local Open Scope N_scope.

Lemma upper_digit_code (d : N) :
  d < 36 -> N_of_ascii (upper_digit d) = if d <? 10 then 48 + d else 55 + d.
Proof.
  intros Hd. unfold upper_digit, JsString.digit_char, JsString.upper_char.
  destruct (N.ltb_spec d 10) as [Hlt|Hge].
  - rewrite !N_ascii_embedding by lia.
    destruct (N.leb_spec 97 (48 + d)); [lia|]. simpl.
    now rewrite N_ascii_embedding by lia.
  - rewrite !N_ascii_embedding by lia.
    destruct (N.leb_spec 97 (87 + d)); [|lia].
    destruct (N.leb_spec (87 + d) 122); [|lia]. simpl.
    rewrite N_ascii_embedding by lia. lia.
Qed.

Lemma upper_digit_lt (d1 d2 : N) :
  d1 < d2 -> d2 < 36 -> Ascii.compare (upper_digit d1) (upper_digit d2) = Lt.
Proof.
  intros H12 H2. unfold Ascii.compare.
  rewrite !upper_digit_code by lia. apply N.compare_lt_iff.
  destruct (N.ltb_spec d1 10), (N.ltb_spec d2 10); lia.
Qed.

Lemma upper_digit_zero : upper_digit 0 = "0"%char.
Proof. reflexivity. Qed.

Lemma toUpperCase_radix36_loop (fuel : nat) (n : N) (acc : string) :
  JsString.toUpperCase (JsString.radix36_loop JsString.digit_char fuel n acc)
  = JsString.radix36_loop upper_digit fuel n (JsString.toUpperCase acc).
Proof.
  revert n acc. induction fuel as [|f IH]; intros n acc; simpl; [reflexivity|].
  destruct (n / 36 =? 0); [reflexivity|].
  rewrite IH. reflexivity.
Qed.

Lemma fixed36_acc (dg : N -> ascii) (w : nat) (n : N) (acc : string) :
  fixed36 dg w n acc = fixed36 dg w n EmptyString +:+ acc.
Proof.
  revert n acc. induction w as [|w IH]; intros n acc; simpl; [reflexivity|].
  rewrite (IH _ (String _ acc)), (IH _ (String _ EmptyString)).
  rewrite append_assoc. reflexivity.
Qed.

Lemma fixed36_zero (dg : N -> ascii) (w : nat) (acc : string) :
  fixed36 dg w 0 acc = JsString.repeat_char (dg 0) w +:+ acc.
Proof.
  revert acc. induction w as [|w IH]; intros acc; simpl; [reflexivity|].
  change (0 / 36) with 0. change (0 mod 36) with 0.
  rewrite IH. apply repeat_char_shift.
Qed.

(** The variable width digits are the fixed width ones without their
    leading zeros. *)
Lemma radix36_loop_fixed36 (dg : N -> ascii) (fuel : nat) :
  forall (n : N) (acc : string) (w : nat),
    (0 < w)%nat -> n < 36 ^ N.of_nat fuel -> n < 36 ^ N.of_nat w ->
    exists pre,
      JsString.radix36_loop dg fuel n acc = pre +:+ acc
      /\ (String.length pre <= w)%nat
      /\ fixed36 dg w n acc
         = JsString.repeat_char (dg 0) (w - String.length pre) +:+ (pre +:+ acc).
Proof.
  induction fuel as [|f IH]; intros n acc w Hw Hf Hn.
  - simpl in Hf. assert (n = 0) by lia. subst n.
    destruct w as [|w]; [lia|].
    exists EmptyString. simpl. split; [reflexivity|]. split; [lia|].
    change (0 / 36) with 0. change (0 mod 36) with 0.
    rewrite fixed36_zero. rewrite repeat_char_shift. reflexivity.
  - destruct w as [|w]; [lia|]. simpl.
    destruct (N.eqb_spec (n / 36) 0) as [Hq|Hq].
    + exists (String (dg (n mod 36)) EmptyString). simpl.
      split; [reflexivity|]. split; [lia|].
      rewrite Hq, fixed36_zero. now rewrite Nat.sub_0_r.
    + assert (36 <= n).
      { destruct (N.lt_ge_cases n 36) as [Hsmall|]; [|assumption].
        apply N.div_small in Hsmall. contradiction. }
      assert (Hf' : n / 36 < 36 ^ N.of_nat f).
      { apply N.Div0.div_lt_upper_bound.
        rewrite Nat2N.inj_succ, N.pow_succ_r' in Hf. exact Hf. }
      assert (Hn' : n / 36 < 36 ^ N.of_nat w).
      { apply N.Div0.div_lt_upper_bound.
        rewrite Nat2N.inj_succ, N.pow_succ_r' in Hn. exact Hn. }
      assert (Hw' : (0 < w)%nat).
      { destruct w as [|w]; [|lia]. simpl in Hn'. assert (n / 36 = 0) by lia. contradiction. }
      destruct (IH (n / 36) (String (dg (n mod 36)) acc) w Hw' Hf' Hn')
        as (pre & Hloop & Hlen & Hfix).
      exists (pre +:+ String (dg (n mod 36)) EmptyString).
      rewrite append_assoc. simpl. split; [exact Hloop|].
      rewrite length_append. simpl. split; [clear - Hlen; lia|].
      rewrite Hfix. do 2 f_equal. clear - Hlen. lia.
Qed.

Lemma pos_lt_pow2_size (p : positive) : N.pos p < 2 ^ N.of_nat (Pos.size_nat p).
Proof.
  induction p as [p IH|p IH|]; cbn [Pos.size_nat];
    rewrite ?Nat2N.inj_succ, ?N.pow_succ_r'; lia.
Qed.

Lemma toString36_fuel (n : N) : n < 36 ^ N.of_nat (S (N.size_nat n)).
Proof.
  rewrite Nat2N.inj_succ, N.pow_succ_r'.
  assert (n < 2 ^ N.of_nat (N.size_nat n)).
  { destruct n as [|p]; [simpl; lia | apply pos_lt_pow2_size]. }
  assert (2 ^ N.of_nat (N.size_nat n) <= 36 ^ N.of_nat (N.size_nat n)).
  { apply N.pow_le_mono_l. lia. }
  lia.
Qed.

Lemma fixed36_lt (w : nat) :
  forall (n1 n2 : N) (acc1 acc2 : string),
    n1 < n2 -> n2 < 36 ^ N.of_nat w ->
    String.compare (fixed36 upper_digit w n1 acc1) (fixed36 upper_digit w n2 acc2) = Lt.
Proof.
  induction w as [|w IH]; intros n1 n2 acc1 acc2 H12 H2.
  - simpl in H2. lia.
  - simpl.
    assert (Hq2 : n2 / 36 < 36 ^ N.of_nat w).
    { apply N.Div0.div_lt_upper_bound.
      rewrite Nat2N.inj_succ, N.pow_succ_r' in H2. exact H2. }
    destruct (N.lt_ge_cases (n1 / 36) (n2 / 36)) as [Hlt|Hge].
    + apply IH; assumption.
    + assert (Hle : n1 / 36 <= n2 / 36) by (apply N.Div0.div_le_mono; lia).
      assert (Heq : n1 / 36 = n2 / 36) by lia.
      rewrite Heq.
      rewrite (fixed36_acc _ _ _ (String _ acc1)), (fixed36_acc _ _ _ (String _ acc2)).
      rewrite compare_common_prefix. simpl.
      assert (Hmod : n1 mod 36 < n2 mod 36).
      { pose proof (N.div_mod n1 36). pose proof (N.div_mod n2 36). lia. }
      rewrite upper_digit_lt; [reflexivity | assumption | apply N.mod_lt; lia].
Qed.

End Base36.

(** ** The identifier generator (C1) *)

Section IdGenerator.

Lemma hex_length (bs : list Byte.byte) :
  String.length (JsString.hex bs) = (2 * List.length bs)%nat.
Proof. induction bs as [|b bs IH]; simpl; [reflexivity | rewrite IH; lia]. Qed.

Lemma substring0_length (m : nat) :
  forall s : string, (m <= String.length s)%nat ->
    String.length (JsString.substring0 m s) = m.
Proof.
  unfold JsString.substring0.
  induction m as [|m IH]; intros [|c s] Hlen; simpl in *; try reflexivity; try lia.
  rewrite IH; [reflexivity | lia].
Qed.

Lemma random_part_length (r : IdReading) :
  List.length (random_bytes r) = 8%nat -> String.length (random_part r) = 12%nat.
Proof.
  intros H. unfold random_part.
  rewrite toUpperCase_length, substring0_length; [reflexivity|].
  rewrite hex_length, H. lia.
Qed.

(** An identifier is the time on fourteen uppercase base 36 digits
    followed by the twelve random characters. *)
Lemma generateULID_shape (r : IdReading) :
  reading_ok r ->
  generateULID r = fixed36 upper_digit 14 (date_now r) (random_part r).
Proof.
  intros [Hnow Hlen].
  unfold generateULID, JsString.padStart, JsString.toString36.
  rewrite toUpperCase_append, toUpperCase_radix36_loop.
  change (JsString.toUpperCase EmptyString) with EmptyString.
  fold (random_part r).
  assert (H14 : (date_now r < 36 ^ N.of_nat 14)%N).
  { change (36 ^ N.of_nat 14)%N with 6140942214464815497216%N.
    unfold max_time_value in Hnow. lia. }
  destruct (radix36_loop_fixed36 upper_digit (S (N.size_nat (date_now r)))
              (date_now r) EmptyString 14) as (pre & Hloop & Hpre & Hfix);
    [lia | apply toString36_fuel | exact H14 |].
  rewrite Hloop, append_empty_r.
  rewrite length_append, (random_part_length r Hlen).
  rewrite fixed36_acc, Hfix, append_empty_r, upper_digit_zero, append_assoc.
  do 2 f_equal. clear - Hpre. lia.
Qed.

(** A later tick gives a larger identifier, whatever the random bytes. *)
Lemma generateULID_lt_across_ticks (r1 r2 : IdReading) :
  reading_ok r1 -> reading_ok r2 -> (date_now r1 < date_now r2)%N ->
  JsString.lt (generateULID r1) (generateULID r2).
Proof.
  intros H1 H2 Hlt. unfold JsString.lt.
  rewrite (generateULID_shape r1 H1), (generateULID_shape r2 H2).
  apply fixed36_lt; [exact Hlt|].
  destruct H2 as [Hnow _]. unfold max_time_value in Hnow.
  change (36 ^ N.of_nat 14)%N with 6140942214464815497216%N. lia.
Qed.

(** Within one tick nothing but the random bytes orders two identifiers. *)
Lemma generateULID_same_tick (r1 r2 : IdReading) :
  reading_ok r1 -> reading_ok r2 -> date_now r1 = date_now r2 ->
  String.compare (generateULID r1) (generateULID r2)
  = String.compare (random_part r1) (random_part r2).
Proof.
  intros H1 H2 Heq.
  rewrite (generateULID_shape r1 H1), (generateULID_shape r2 H2), Heq.
  rewrite (fixed36_acc _ _ _ (random_part r1)), (fixed36_acc _ _ _ (random_part r2)).
  apply compare_common_prefix.
Qed.

(** C1, as amended: the identifiers of calls made in strictly later
    ticks of [Date.now()] are strictly increasing as strings, in call
    order.  (Within one tick the generator keeps no state: see
    [generateULID_same_tick].) *)
Theorem generateULID_increasing_across_ticks (readings : list IdReading) :
  Forall reading_ok readings ->
  StronglySorted N.lt (map date_now readings) ->
  strictly_increasing (generate_all readings).
Proof.
  unfold strictly_increasing, generate_all.
  induction readings as [|r rest IH]; intros Hok Hticks; simpl.
  - constructor.
  - inversion Hok as [|? ? Hr Hrest]; subst.
    inversion Hticks as [|? ? Hsorted Hall]; subst.
    constructor; [apply IH; assumption|].
    rewrite Forall_map in Hall. rewrite Forall_map.
    rewrite Forall_forall in *. intros r' Hin.
    apply generateULID_lt_across_ticks; auto.
Qed.

(** Two calls one millisecond apart, the second with smaller random bytes. *)
Lemma generateULID_increasing_across_ticks_witness :
  strictly_increasing
    (generate_all
       [ {| date_now := 1700000000000;
            random_bytes := [Byte.xff; Byte.xff; Byte.xff; Byte.xff;
                             Byte.xff; Byte.xff; Byte.xff; Byte.xff] |};
         {| date_now := 1700000000001;
            random_bytes := [Byte.x00; Byte.x00; Byte.x00; Byte.x00;
                             Byte.x00; Byte.x00; Byte.x00; Byte.x00] |} ]).
Proof.
  apply generateULID_increasing_across_ticks.
  - repeat constructor; vm_compute; discriminate.
  - repeat constructor.
Defined.

(** C1, refuted as stated: two calls in the same millisecond, the
    second drawing smaller random bytes, return identifiers that go down. *)
Lemma generateULID_same_tick_not_increasing :
  let first := {| date_now := 1700000000000;
                  random_bytes := [Byte.xff; Byte.xff; Byte.xff; Byte.xff;
                                   Byte.xff; Byte.xff; Byte.xff; Byte.xff] |} in
  let second := {| date_now := 1700000000000;
                   random_bytes := [Byte.x00; Byte.x00; Byte.x00; Byte.x00;
                                    Byte.x00; Byte.x00; Byte.x00; Byte.x00] |} in
  reading_ok first /\ reading_ok second
  /\ generate_all [first; second]
     = ["000000LOYW3V28FFFFFFFFFFFF"; "000000LOYW3V28000000000000"]
  /\ ~ strictly_increasing (generate_all [first; second]).
Proof.
  cbv zeta. split; [|split; [|split]].
  - split; [vm_compute; discriminate | reflexivity].
  - split; [vm_compute; discriminate | reflexivity].
  - vm_compute. reflexivity.
  - intros H. unfold strictly_increasing in H.
    inversion H as [|? ? _ Hall]; subst.
    inversion Hall as [|? ? Hlt _]; subst.
    vm_compute in Hlt. discriminate.
Qed.

End IdGenerator.

(** ** The write path (C7) *)

Section WritePath.

Lemma stmt_run_insert_failure (fault : option string) (bound : option Row)
    (d d1 : Database) (err : Error) :
  stmt_run_insert fault bound d = (Throw err, d1) ->
  rows d1 = rows d /\ inserts_run d1 = S (inserts_run d).
Proof.
  unfold stmt_run_insert. intros H.
  destruct fault as [msg|]; [inversion H; subst; split; reflexivity|].
  destruct bound as [r|]; [|inversion H; subst; split; reflexivity].
  destruct (existsb _ _); inversion H; subst; split; reflexivity.
Qed.

Lemma stmt_run_insert_success (fault : option string) (bound : option Row)
    (d d1 : Database) :
  stmt_run_insert fault bound d = (Ok tt, d1) ->
  exists r, bound = Some r
    /\ fault = None
    /\ existsb (String.eqb (row_event_id r)) (map row_event_id (rows d)) = false
    /\ rows d1 = (rows d ++ [r])%list
    /\ inserts_run d1 = S (inserts_run d).
Proof.
  unfold stmt_run_insert. intros H.
  destruct fault as [msg|]; [discriminate|].
  destruct bound as [r|]; [|discriminate].
  destruct (existsb _ _) eqn:Hdup; [discriminate|].
  inversion H; subst. exists r. repeat split; assumption || reflexivity.
Qed.

(** What a successful [writeEvent] did: it returned the identifier of the
    envelope it built and appended the row bound from that envelope. *)
Lemma writeEvent_success (this : Observability) (kind : string) (payload : JsValue)
    (options : WriteOptions) (rd : WriteReading) (d d1 : Database) (id : string) :
  writeEvent this kind payload options rd d = (Ok id, d1) ->
  let e := createBaseEvent this kind payload (with_component options) rd in
  id = event_id e
  /\ exists r, bind_event e = Some r
       /\ existsb (String.eqb (row_event_id r)) (map row_event_id (rows d)) = false
       /\ rows d1 = (rows d ++ [r])%list.
Proof.
  intros H e. unfold writeEvent, eff_bind, writeEventToDb in H. fold e in H.
  destruct (stmt_run_insert (storage_fault rd) (bind_event e) d) as [[[]|err] d2] eqn:Hrun;
    [|discriminate].
  unfold eff_ret in H. inversion H; subst.
  destruct (stmt_run_insert_success _ _ _ _ Hrun) as (r & Hb & _ & Hfresh & Hrows & _).
  split; [reflexivity|]. exists r. auto.
Qed.

(** C7: when the insert of the event fails, [writeEvent] ends with that
    very failure, the table holds the rows it held before, and the INSERT
    was run exactly once (no retry). *)
Theorem writeEvent_insert_failure (this : Observability) (kind : string)
    (payload : JsValue) (options : WriteOptions) (rd : WriteReading)
    (d d1 : Database) (err : Error) :
  writeEventToDb (createBaseEvent this kind payload (with_component options) rd)
    (storage_fault rd) d = (Throw err, d1) ->
  writeEvent this kind payload options rd d = (Throw err, d1)
  /\ rows d1 = rows d
  /\ inserts_run d1 = S (inserts_run d).
Proof.
  intros H. split.
  - unfold writeEvent, eff_bind. rewrite H. reflexivity.
  - unfold writeEventToDb in H. exact (stmt_run_insert_failure _ _ _ _ _ H).
Qed.

(** The same identifier drawn twice: the second insert meets the primary
    key and fails. *)
Lemma writeEvent_insert_failure_witness :
  let rd := sample_reading 1700000000000 "2023-11-14T22:13:20.000Z" in
  let d := snd (writeEvent sample_instance "log" (JsObject []) plain_options rd
                  empty_database) in
  writeEvent sample_instance "log" (JsObject []) plain_options rd d
    = (Throw SqliteConstraintPrimaryKey, count_insert d)
  /\ rows (count_insert d) = rows d
  /\ inserts_run (count_insert d) = S (inserts_run d).
Proof.
  cbv zeta.
  apply (writeEvent_insert_failure sample_instance "log" (JsObject []) plain_options
           (sample_reading 1700000000000 "2023-11-14T22:13:20.000Z")).
  vm_compute. reflexivity.
Defined.

(** A fault of the storage engine surfaces in the same way. *)
Lemma writeEvent_storage_fault (this : Observability) (kind : string)
    (payload : JsValue) (options : WriteOptions) (rd : WriteReading)
    (d : Database) (msg : string) :
  storage_fault rd = Some msg ->
  writeEvent this kind payload options rd d = (Throw (SqliteFault msg), count_insert d).
Proof.
  intros H. unfold writeEvent, eff_bind, writeEventToDb, stmt_run_insert.
  rewrite H. reflexivity.
Qed.

End WritePath.

(** ** Payloads of the typed writers (C3, C9) *)

Section Payloads.

Lemma JSON_stringify_object (props : JsRecord) :
  JSON_stringify (JsObject props) = Some (JObject (stringify_members props)).
Proof. reflexivity. Qed.

Lemma stringify_members_cons (k : string) (v : JsValue) (r : JsRecord) :
  stringify_members ((k, v) :: r)
  = match JSON_stringify v with
    | Some j => (k, j) :: stringify_members r
    | None => stringify_members r
    end.
Proof. reflexivity. Qed.

(** Assigning one property leaves the other members of the stored
    document alone. *)
Lemma member_set_prop_other (q k : string) (v : JsValue) (o : JsRecord) :
  String.eqb q k = false ->
  json_member_list q (stringify_members (set_prop k v o))
  = json_member_list q (stringify_members o).
Proof.
  intros Hqk. induction o as [|[k' v'] r IH].
  - simpl set_prop. rewrite stringify_members_cons.
    destruct (JSON_stringify v); simpl; [rewrite Hqk|]; reflexivity.
  - simpl set_prop. destruct (String.eqb_spec k k') as [->|Hne].
    + rewrite !stringify_members_cons.
      destruct (JSON_stringify v), (JSON_stringify v'); simpl; rewrite ?Hqk; reflexivity.
    + rewrite !stringify_members_cons.
      destruct (JSON_stringify v'); simpl; [destruct (String.eqb q k')|]; auto.
Qed.

Lemma member_assign_defined (q k : string) (v : JsValue) (o : JsRecord) :
  String.eqb q k = false ->
  json_member_list q (stringify_members (assign_defined k v o))
  = json_member_list q (stringify_members o).
Proof.
  intros H. unfold assign_defined.
  destruct v; try reflexivity; apply member_set_prop_other; exact H.
Qed.

Lemma member_assign_number (q k : string) (n : option Z) (o : JsRecord) :
  String.eqb q k = false ->
  json_member_list q (stringify_members (assign_number k n o))
  = json_member_list q (stringify_members o).
Proof.
  intros H. unfold assign_number.
  destruct n; [apply member_set_prop_other; exact H | reflexivity].
Qed.

Lemma member_assign_truthy (q k : string) (s : option string) (o : JsRecord) :
  String.eqb q k = false ->
  json_member_list q (stringify_members (assign_truthy k s o))
  = json_member_list q (stringify_members o).
Proof.
  intros H. unfold assign_truthy.
  destruct (truthy_opt s); [apply member_set_prop_other; exact H | reflexivity].
Qed.

Lemma member_assign_present (q k : string) (x : option JsValue) (o : JsRecord) :
  String.eqb q k = false ->
  json_member_list q (stringify_members (assign_present k x o))
  = json_member_list q (stringify_members o).
Proof.
  intros H. unfold assign_present.
  destruct x; [apply member_set_prop_other; exact H | reflexivity].
Qed.

End Payloads.

(** Looks through the conditional assignments of a writer for a member
    they do not assign. *)
Ltac skip_assignments :=
  repeat first
    [ rewrite member_assign_defined by reflexivity
    | rewrite member_assign_number by reflexivity
    | rewrite member_assign_truthy by reflexivity
    | rewrite member_assign_present by reflexivity ].

Section ErrorWriter.

(** C9: the envelope [writeError] writes is tagged [["error", errorType]],
    and the data stored for it has the booleans [retryable] and
    [transient], each [false] when the caller left it out. *)
Theorem writeError_flags_and_tags (this : Observability) (errorType message : string)
    (options : ErrorOptions) (rd : WriteReading) :
  let e := createBaseEvent this "error"
             (JsObject (writeError_data errorType message options))
             (with_component (writeError_options errorType options)) rd in
  (forall d, writeError this errorType message options rd d
             = (let! _ := writeEventToDb e (storage_fault rd) in eff_ret (event_id e)) d)
  /\ event_tags (event e) = js_val ["error"; errorType]
  /\ (exists r, bind_event e = Some r
        /\ row_event_tags r = Some ("error," +:+ errorType)
        /\ json_member "retryable" (row_data r)
           = Some (JBool (match er_retryable options with Some b => b | None => false end))
        /\ json_member "transient" (row_data r)
           = Some (JBool (match er_transient options with Some b => b | None => false end))).
Proof.
  intros e. split; [reflexivity|]. split; [reflexivity|].
  unfold bind_event. subst e. cbn [data createBaseEvent].
  rewrite JSON_stringify_object. eexists. split; [reflexivity|].
  cbn [row_event_tags row_data json_member]. split; [reflexivity|].
  unfold writeError_data. skip_assignments.
  destruct (er_sessionId options); split; reflexivity.
Qed.

End ErrorWriter.

Section RequiredFields.






End RequiredFields.

(** ** The query engine (C4, C5, C10) *)

Section QueryEngine.

Lemma push_text_supplied (x : option string) (frag : SqlFragment)
    (qp : list SqlFragment * list SqlValue) :
  push_text x frag qp
  = match supplied x with
    | Some v => ((fst qp ++ [frag])%list, (snd qp ++ [SqlText v])%list)
    | None => qp
    end.
Proof. destruct x as [v|]; simpl; [destruct (JsString.truthy v)|]; reflexivity. Qed.

Lemma push_number_supplied (x : option Z) (frag : SqlFragment)
    (qp : list SqlFragment * list SqlValue) :
  push_number x frag qp
  = match supplied_number x with
    | Some n => ((fst qp ++ [frag])%list, (snd qp ++ [SqlInteger n])%list)
    | None => qp
    end.
Proof. destruct x as [n|]; simpl; [destruct (n =? 0)%Z|]; reflexivity. Qed.

Lemma push_text_fragment (x : option string) (c : Column) (op : CmpOp)
    (q : list SqlFragment) (ps : list SqlValue) :
  push_text x (AndCmp c op) (q, ps)
  = ((q ++ map cond_fragment (opt_cond x c op))%list,
     (ps ++ map cond_param (opt_cond x c op))%list).
Proof.
  rewrite push_text_supplied. unfold opt_cond.
  destruct (supplied x); simpl; [reflexivity|].
  now rewrite !app_nil_r.
Qed.

Lemma push_number_fragment (x : option Z) (frag : SqlFragment)
    (q : list SqlFragment) (ps : list SqlValue) :
  push_number x frag (q, ps)
  = ((q ++ number_fragment frag x)%list, (ps ++ number_param x)%list).
Proof.
  rewrite push_number_supplied. unfold number_fragment, number_param.
  destruct (supplied_number x); simpl; [reflexivity|].
  now rewrite !app_nil_r.
Qed.

(** The text and the values [queryEvents] builds, piece by piece. *)
Lemma build_query_shape (f : QueryFilters) :
  build_query f
  = ((SelectAllWhereTrue :: map cond_fragment (supplied_conds f)
        ++ OrderByTsDesc :: number_fragment LimitParam (filter_limit f)
        ++ number_fragment OffsetParam (filter_offset f))%list,
     (map cond_param (supplied_conds f)
        ++ number_param (filter_limit f) ++ number_param (filter_offset f))%list).
Proof.
  unfold build_query.
  rewrite !push_text_fragment. cbn [fst snd].
  rewrite !push_number_fragment.
  unfold supplied_conds. rewrite !map_app.
  f_equal; cbn [app]; rewrite <- ?app_assoc; reflexivity.
Qed.

Lemma parse_conds_fragments (cs : list (Column * CmpOp * string)) (rest : list SqlFragment) :
  parse_conds (map cond_fragment cs ++ OrderByTsDesc :: rest)%list
  = (map fst cs, OrderByTsDesc :: rest).
Proof.
  induction cs as [|[[c op] v] cs IH]; [reflexivity|].
  cbn [map app cond_fragment fst snd parse_conds]. rewrite IH. reflexivity.
Qed.

Lemma bind_conds_params (cs : list (Column * CmpOp * string)) (rest : list SqlValue) :
  bind_conds (map fst cs) (map cond_param cs ++ rest)%list
  = Some (map cond_test cs, rest).
Proof.
  induction cs as [|[[c op] v] cs IH]; [reflexivity|].
  cbn [map app cond_param fst snd bind_conds]. rewrite IH. reflexivity.
Qed.

Lemma forallb_opt_cond (x : option string) (c : Column) (op : CmpOp) (r : Row) :
  forallb (fun g => g r) (map cond_test (opt_cond x c op))
  = holds_if_supplied x (fun v => cond_holds c op v r).
Proof.
  unfold opt_cond, holds_if_supplied.
  destruct (supplied x); simpl; [apply andb_true_r | reflexivity].
Qed.

Lemma forallb_supplied_conds (f : QueryFilters) (r : Row) :
  forallb (fun g => g r) (map cond_test (supplied_conds f)) = satisfies_filters f r.
Proof.
  unfold supplied_conds. rewrite !map_app, !forallb_app, !forallb_opt_cond.
  unfold satisfies_filters. rewrite !andb_assoc. reflexivity.
Qed.

(** The whole of [queryEvents]: the rows that satisfy every supplied
    filter, most recent first, then cut by LIMIT and OFFSET. *)
Lemma queryEvents_spec (f : QueryFilters) (d : Database) :
  queryEvents f d
  = match paginate f (matching_rows f d) with
    | Ok selected => Ok (map row_to_event selected)
    | Throw e => Throw e
    end.
Proof.
  unfold queryEvents. rewrite build_query_shape.
  unfold sqlite_prepare. rewrite parse_conds_fragments.
  assert (Hrows : List.filter (fun r => forallb (fun g => g r)
                                          (map cond_test (supplied_conds f))) (rows d)
                  = List.filter (satisfies_filters f) (rows d)).
  { apply filter_ext. intros r. apply forallb_supplied_conds. }
  unfold paginate, matching_rows, number_fragment, number_param.
  destruct (supplied_number (filter_limit f)) as [n|],
           (supplied_number (filter_offset f)) as [o|];
    cbn [app parse_tail]; unfold stmt_all;
    cbn [select_conds select_ordered select_limit select_offset];
    try rewrite bind_conds_params; try rewrite Hrows; reflexivity.
Qed.

Lemma satisfies_filters_spec (f : QueryFilters) (r : Row) :
  satisfies_filters f r = true
  <-> (forall k, supplied (filter_kind f) = Some k -> row_event_kind r = k)
      /\ (forall sid, supplied (filter_session_id f) = Some sid ->
            row_context_session_id r = Some sid)
      /\ (forall m, supplied (filter_machine_id f) = Some m -> row_machine_id r = m)
      /\ (forall t, supplied (filter_start_ts f) = Some t -> String.leb t (row_ts r) = true)
      /\ (forall t, supplied (filter_end_ts f) = Some t -> String.leb (row_ts r) t = true).
Proof.
  unfold satisfies_filters, holds_if_supplied.
  rewrite !andb_true_iff.
  destruct (supplied (filter_kind f)) as [k|],
           (supplied (filter_session_id f)) as [sid|],
           (supplied (filter_machine_id f)) as [m|],
           (supplied (filter_start_ts f)) as [t1|],
           (supplied (filter_end_ts f)) as [t2|];
    try destruct (row_context_session_id r) as [v|];
    rewrite ?String.eqb_eq;
    (split;
     [ intros Hall; decompose [and] Hall; clear Hall; repeat split; intros ? Heq;
       inversion Heq; subst; congruence
     | intros (H1 & H2 & H3 & H4 & H5); repeat split;
       try reflexivity; auto;
       try (specialize (H2 _ eq_refl); congruence) ]).
Qed.

(** C5: the filters are combined with AND.  The events returned are
    those of the rows that satisfy every supplied filter (a filter is
    supplied when it is set to a non empty text), most recent first, cut
    by LIMIT and OFFSET; [kind] with [session_id] selects the rows that
    have both; with no filter supplied every stored row is selected. *)
Theorem queryEvents_conjunctive (f : QueryFilters) (d : Database) :
  queryEvents f d
  = match paginate f (order_by_ts_desc (List.filter (satisfies_filters f) (rows d))) with
    | Ok selected => Ok (map row_to_event selected)
    | Throw e => Throw e
    end
  /\ (forall r, satisfies_filters f r = true
      <-> (forall k, supplied (filter_kind f) = Some k -> row_event_kind r = k)
          /\ (forall sid, supplied (filter_session_id f) = Some sid ->
                row_context_session_id r = Some sid)
          /\ (forall m, supplied (filter_machine_id f) = Some m -> row_machine_id r = m)
          /\ (forall t, supplied (filter_start_ts f) = Some t ->
                String.leb t (row_ts r) = true)
          /\ (forall t, supplied (filter_end_ts f) = Some t ->
                String.leb (row_ts r) t = true))
  /\ (supplied (filter_kind f) = None -> supplied (filter_session_id f) = None ->
      supplied (filter_machine_id f) = None -> supplied (filter_start_ts f) = None ->
      supplied (filter_end_ts f) = None ->
      List.filter (satisfies_filters f) (rows d) = rows d).
Proof.
  split; [apply queryEvents_spec|]. split; [apply satisfies_filters_spec|].
  intros Hk Hs Hm Ht1 Ht2. apply forallb_filter_id, forallb_forall. intros r _.
  unfold satisfies_filters, holds_if_supplied. rewrite Hk, Hs, Hm, Ht1, Ht2. reflexivity.
Qed.

(** The filters [kind = "metric"] and [session_id = "S1"] on events of
    three kinds in two sessions, and no filter at all. *)
Lemma queryEvents_conjunctive_witness :
  returned_ids (queryEvents (kind_and_session "metric" "S1") mixed_events) = Ok ["E"; "A"]
  /\ (forall r, satisfies_filters (kind_and_session "metric" "S1") r = true ->
        row_event_kind r = "metric" /\ row_context_session_id r = Some "S1")
  /\ List.filter (satisfies_filters no_filters) (rows mixed_events) = rows mixed_events.
Proof.
  split; [|split].
  - rewrite (proj1 (queryEvents_conjunctive (kind_and_session "metric" "S1") mixed_events)).
    vm_compute. reflexivity.
  - intros r Hr.
    apply (proj1 (proj2 (queryEvents_conjunctive (kind_and_session "metric" "S1")
                           mixed_events)) r) in Hr.
    destruct Hr as (Hk & Hs & _). split; [apply Hk | apply Hs]; reflexivity.
  - apply (proj2 (proj2 (queryEvents_conjunctive no_filters mixed_events)));
      reflexivity.
Defined.

(** C4, evaluated where it fails: with an offset and no limit the text of
    the query ends in [OFFSET ?] right after the ORDER BY clause, SQLite
    refuses it, and [queryEvents] throws instead of returning the events
    ranked from the fourth on, whatever the table holds. *)
Theorem queryEvents_offset_alone (d : Database) :
  sql_text (fst (build_query (page None (Some 3%Z))))
  = "SELECT * FROM events WHERE 1=1 ORDER BY ts DESC OFFSET ?"
  /\ snd (build_query (page None (Some 3%Z))) = [SqlInteger 3]
  /\ queryEvents (page None (Some 3%Z)) d = Throw (SqliteSyntaxError "OFFSET")
  /\ queryEvents (page None (Some 3%Z)) ten_events = Throw (SqliteSyntaxError "OFFSET").
Proof. repeat split; reflexivity. Qed.

(** An offset is refused whenever no limit goes with it. *)
Lemma queryEvents_offset_needs_limit (f : QueryFilters) (d : Database) (o : Z) :
  supplied_number (filter_limit f) = None ->
  supplied_number (filter_offset f) = Some o ->
  queryEvents f d = Throw (SqliteSyntaxError "OFFSET").
Proof.
  intros Hl Ho. rewrite queryEvents_spec. unfold paginate. rewrite Hl, Ho. reflexivity.
Qed.

(** With a limit that is not 0 the pages are cut after the ordering. *)
Lemma queryEvents_page (f : QueryFilters) (d : Database) (n : Z) :
  supplied_number (filter_limit f) = Some n ->
  queryEvents f d
  = Ok (map row_to_event
          (sql_limit n
             (match supplied_number (filter_offset f) with
              | Some o => sql_offset o (matching_rows f d)
              | None => matching_rows f d
              end))).
Proof.
  intros Hl. rewrite queryEvents_spec. unfold paginate. rewrite Hl.
  destruct (supplied_number (filter_offset f)); reflexivity.
Qed.

(** The pages of three over ten stored events: ranks 1-3, 4-6 and 7-9. *)
Example queryEvents_pages_of_three :
  returned_ids (queryEvents (page (Some 3%Z) (Some 0%Z)) ten_events)
    = Ok ["EVENT9"; "EVENT8"; "EVENT7"]
  /\ returned_ids (queryEvents (page (Some 3%Z) (Some 3%Z)) ten_events)
     = Ok ["EVENT6"; "EVENT5"; "EVENT4"]
  /\ returned_ids (queryEvents (page (Some 3%Z) (Some 6%Z)) ten_events)
     = Ok ["EVENT3"; "EVENT2"; "EVENT1"].
Proof. repeat split; vm_compute; reflexivity. Qed.

(** C10: a limit of 0 and an offset of 0 are treated as absent.  The
    query built is the one built without the field, so no LIMIT and no
    OFFSET clause is added and the answer is the same; with a limit of 0
    and no offset every matching event is returned. *)
Theorem queryEvents_zero_is_absent (f : QueryFilters) (d : Database) :
  build_query (with_limit (Some 0%Z) f) = build_query (with_limit None f)
  /\ build_query (with_offset (Some 0%Z) f) = build_query (with_offset None f)
  /\ queryEvents (with_limit (Some 0%Z) f) d = queryEvents (with_limit None f) d
  /\ queryEvents (with_offset (Some 0%Z) f) d = queryEvents (with_offset None f) d
  /\ ~ In LimitParam (fst (build_query (with_limit (Some 0%Z) f)))
  /\ ~ In OffsetParam (fst (build_query (with_offset (Some 0%Z) f)))
  /\ queryEvents (with_limit (Some 0%Z) (with_offset None f)) d
     = Ok (map row_to_event (matching_rows f d)).
Proof.
  assert (Hfrag : forall g frag, In frag (map cond_fragment (supplied_conds g)) ->
                                 exists c op, frag = AndCmp c op).
  { intros g frag Hin. apply in_map_iff in Hin as ([[c op] v] & <- & _).
    exists c, op. reflexivity. }
  repeat split; try reflexivity.
  - rewrite build_query_shape. cbn [fst with_limit filter_limit filter_offset].
    unfold number_fragment at 1. cbn [supplied_number Z.eqb app].
    intros [Heq|Hin]; [discriminate|].
    apply in_app_or in Hin as [Hin|[Heq|Hin]]; [|discriminate|].
    + apply Hfrag in Hin as (c & op & Heq). discriminate.
    + unfold number_fragment in Hin.
      destruct (supplied_number (filter_offset f)); simpl in Hin;
        [destruct Hin as [Heq|[]]; discriminate | contradiction].
  - rewrite build_query_shape. cbn [fst with_offset filter_limit filter_offset].
    unfold number_fragment at 2. cbn [supplied_number Z.eqb].
    rewrite app_nil_r.
    intros [Heq|Hin]; [discriminate|].
    apply in_app_or in Hin as [Hin|[Heq|Hin]]; [|discriminate|].
    + apply Hfrag in Hin as (c & op & Heq). discriminate.
    + unfold number_fragment in Hin.
      destruct (supplied_number (filter_limit f)); simpl in Hin;
        [destruct Hin as [Heq|[]]; discriminate | contradiction].
  - rewrite queryEvents_spec. reflexivity.
Qed.

End QueryEngine.

(** ** Reading an event back (C2) *)

Section RoundTrip.

Lemma split_comma_free (a : string) :
  comma_free a = true -> JsString.split_comma a = [a].
Proof.
  induction a as [|c a IH]; simpl; [reflexivity|].
  intros H. apply andb_true_iff in H as [Hc Ha].
  apply negb_true_iff in Hc. rewrite Hc, (IH Ha). reflexivity.
Qed.

Lemma split_comma_append (a rest : string) :
  comma_free a = true ->
  JsString.split_comma (a +:+ String "," rest) = a :: JsString.split_comma rest.
Proof.
  induction a as [|c a IH]; simpl; [reflexivity|].
  intros H. apply andb_true_iff in H as [Hc Ha].
  apply negb_true_iff in Hc. rewrite Hc, (IH Ha). reflexivity.
Qed.

(** Splitting undoes joining on a non empty list of tags without commas. *)
Lemma split_join (l : list string) :
  l <> [] -> forallb comma_free l = true ->
  JsString.split_comma (JsString.join_comma l) = l.
Proof.
  induction l as [|a [|b r] IH]; intros Hne Hall.
  - contradiction.
  - simpl in *. apply andb_true_iff in Hall as [Ha _]. now apply split_comma_free.
  - change (JsString.join_comma (a :: b :: r))
      with (a +:+ String "," (JsString.join_comma (b :: r))).
    simpl forallb in Hall. apply andb_true_iff in Hall as [Ha Hrest].
    rewrite (split_comma_append _ _ Ha). f_equal.
    apply IH; [discriminate | exact Hrest].
Qed.

Lemma tags_read_back (t : option (list string)) :
  tags_survive t = true -> tags_of_column (tags_column (of_option t)) = of_option t.
Proof.
  destruct t as [l|]; [|reflexivity]. simpl. intros H.
  apply andb_true_iff in H as [Htruthy Hfree]. rewrite Htruthy. simpl. rewrite Htruthy.
  rewrite split_join; [reflexivity | | exact Hfree].
  intros ->. discriminate.
Qed.

Lemma JSON_stringify_array (items : list JsValue) :
  JSON_stringify (JsArray items) = Some (JArray (map stringify_element items)).
Proof. reflexivity. Qed.

Lemma JSON_parse_array (items : list Json) :
  JSON_parse (JArray items) = JsArray (map JSON_parse items).
Proof. reflexivity. Qed.

Lemma JSON_parse_object (ms : list (string * Json)) :
  JSON_parse (JObject ms) = JsObject (parse_members ms).
Proof. reflexivity. Qed.

Lemma json_clean_array (items : list JsValue) :
  json_clean (JsArray items) = forallb json_clean items.
Proof. reflexivity. Qed.

Lemma json_clean_object (props : JsRecord) :
  json_clean (JsObject props) = clean_props props.
Proof. reflexivity. Qed.

(** A value without [undefined] inside comes back from JSON as it was. *)
Lemma JSON_round_trip :
  forall v, json_clean v = true ->
    exists j, JSON_stringify v = Some j /\ JSON_parse j = v.
Proof.
  fix IH 1. intros [ | |b|z|s|items|props|num den|x| |iso| ] Hclean;
    try discriminate Hclean.
  - eexists; split; reflexivity.
  - eexists; split; reflexivity.
  - eexists; split; reflexivity.
  - eexists; split; reflexivity.
  - rewrite JSON_stringify_array. eexists. split; [reflexivity|].
    rewrite JSON_parse_array. f_equal.
    rewrite json_clean_array in Hclean.
    induction items as [|x xs IHl]; [reflexivity|].
    cbn [forallb] in Hclean. apply andb_true_iff in Hclean as [Hx Hxs].
    cbn [map]. unfold stringify_element at 1.
    destruct (IH x Hx) as (j & Hj & Hp). rewrite Hj, Hp.
    f_equal. exact (IHl Hxs).
  - rewrite JSON_stringify_object. eexists. split; [reflexivity|].
    rewrite JSON_parse_object. f_equal.
    rewrite json_clean_object in Hclean.
    induction props as [|[k x] xs IHl]; [reflexivity|].
    cbn [clean_props] in Hclean. apply andb_true_iff in Hclean as [Hx Hxs].
    rewrite stringify_members_cons.
    destruct (IH x Hx) as (j & Hj & Hp). rewrite Hj.
    cbn [parse_members]. rewrite Hp.
    f_equal. exact (IHl Hxs).
  - eexists; split; reflexivity.
Qed.

Lemma in_insert_by_ts_desc (x r : Row) (l : list Row) :
  In x (insert_by_ts_desc r l) <-> x = r \/ In x l.
Proof.
  induction l as [|y t IH]; simpl.
  - intuition congruence.
  - destruct (String.leb (row_ts y) (row_ts r)); simpl; [intuition congruence|].
    rewrite IH. intuition congruence.
Qed.

Lemma in_order_by_ts_desc (x : Row) (l : list Row) :
  In x (order_by_ts_desc l) <-> In x l.
Proof.
  unfold order_by_ts_desc. induction l as [|y t IH]; simpl; [reflexivity|].
  rewrite in_insert_by_ts_desc, IH. intuition congruence.
Qed.

Lemma queryEvents_no_filters (d : Database) :
  queryEvents no_filters d = Ok (map row_to_event (order_by_ts_desc (rows d))).
Proof.
  rewrite queryEvents_spec. unfold paginate, matching_rows. cbn.
  rewrite forallb_filter_id; [reflexivity|].
  apply forallb_forall. reflexivity.
Qed.

Lemma null_if_unset_set (s : string) : null_if_unset (of_option (Some s)) = js_val s.
Proof. reflexivity. Qed.

Lemma null_if_unset_unset : null_if_unset (of_option None) = js_null.
Proof. reflexivity. Qed.

(** The envelope read from the row an envelope was bound to. *)
Lemma bind_event_read_back (e : OmniEvent) (r : Row) (t : option (list string)) :
  bind_event e = Some r ->
  event_tags (event e) = of_option t -> tags_survive t = true ->
  json_clean (data e) = true ->
  row_to_event r = with_unset_as_null e.
Proof.
  intros Hb Htags Hsurvive Hclean. unfold bind_event in Hb.
  destruct (JSON_round_trip (data e) Hclean) as (j & Hj & Hp).
  rewrite Hj in Hb. inversion Hb; subst r; clear Hb.
  unfold row_to_event, with_unset_as_null. cbn.
  rewrite Hp, Htags, (tags_read_back t Hsurvive), <- Htags.
  destruct e as [? ? ? ? ? [ek et] ? ? ?]. reflexivity.
Qed.

Lemma fresh_identifier (id : string) (l : list Row) (r : Row) :
  existsb (String.eqb id) (map row_event_id l) = false ->
  In r l -> row_event_id r <> id.
Proof.
  intros Hfresh Hin Heq.
  assert (Hex : existsb (String.eqb id) (map row_event_id l) = true).
  { apply existsb_exists. exists (row_event_id r). split.
    - apply in_map. exact Hin.
    - rewrite Heq. apply String.eqb_refl. }
  congruence.
Qed.

(** C2, as amended: an event written through [writeEvent] whose tags
    are absent or are comma free with a non empty joined text, and whose
    data is plain JSON data ([json_clean]: null, booleans, finite numbers
    other than negative zero, strings, arrays and objects of these), is
    returned by the query that follows as the envelope built at write time
    with its unset optional text fields read as [null]: same tags list,
    same data, each parent link that was set unchanged; and no other
    returned event carries its identifier. *)
Theorem writeEvent_read_back (this : Observability) (kind : string) (payload : JsValue)
    (options : WriteOptions) (rd : WriteReading) (d d1 : Database) (id : string) :
  writeEvent this kind payload options rd d = (Ok id, d1) ->
  tags_survive (tags options) = true ->
  json_clean payload = true ->
  let e := createBaseEvent this kind payload (with_component options) rd in
  let e' := with_unset_as_null e in
  exists l, queryEvents no_filters d1 = Ok l
    /\ In e' l
    /\ (forall x, In x l -> event_id x = id -> x = e')
    /\ event_id e' = id
    /\ event_tags (event e') = of_option (tags options)
    /\ data e' = payload
    /\ parent e'
       = Some {| parent_event_id := null_if_unset (of_option (parentEventId options));
                 parent_trace_id := null_if_unset (of_option (parentTraceId options));
                 parent_span_id := null_if_unset (of_option (parentSpanId options)) |}.
Proof.
  intros Hw Htags Hclean e e'.
  apply writeEvent_success in Hw. cbv zeta in Hw. fold e in Hw.
  destruct Hw as (Hid & r & Hb & Hfresh & Hrows).
  assert (Hread : row_to_event r = e').
  { apply (bind_event_read_back e r (tags options)); auto. }
  assert (Hrid : row_event_id r = id).
  { rewrite Hid. unfold bind_event in Hb.
    destruct (JSON_stringify (data e)); inversion Hb; reflexivity. }
  exists (map row_to_event (order_by_ts_desc (rows d1))).
  split; [apply queryEvents_no_filters|]. split.
  - rewrite <- Hread. apply in_map. apply (proj2 (in_order_by_ts_desc _ _)).
    rewrite Hrows. apply in_or_app. right. left. reflexivity.
  - split.
    + intros x Hin Hx. apply in_map_iff in Hin as (r' & <- & Hin').
      apply (proj1 (in_order_by_ts_desc _ _)) in Hin'. rewrite Hrows in Hin'.
      apply in_app_or in Hin' as [Hold|[<-|[]]]; [|exact Hread].
      exfalso. rewrite Hrid in Hfresh.
      exact (fresh_identifier id (rows d) r' Hfresh Hold Hx).
    + repeat split; try reflexivity. exact (eq_sym Hid).
Qed.

(** An event with two tags, a payload and one parent link, on an empty
    table. *)
Lemma writeEvent_read_back_witness :
  let options := {| sessionId := Some "S1"; actor := None; phase := None;
                    component := None; tags := Some ["audit"; "db"];
                    parentEventId := Some "000000LOYW3V27AAAAAAAAAAAA";
                    parentTraceId := None; parentSpanId := None |} in
  let payload := JsObject [("rows", JsNumber 10); ("ok", JsBool true)] in
  let rd := sample_reading 1700000000000 "2023-11-14T22:13:20.000Z" in
  let d1 := snd (writeEvent sample_instance "log" payload options rd empty_database) in
  let e' := with_unset_as_null
              (createBaseEvent sample_instance "log" payload (with_component options) rd) in
  exists l, queryEvents no_filters d1 = Ok l
    /\ In e' l
    /\ (forall x, In x l -> event_id x = "000000LOYW3V280123456789AB" -> x = e')
    /\ event_id e' = "000000LOYW3V280123456789AB"
    /\ event_tags (event e') = of_option (tags options)
    /\ data e' = payload
    /\ parent e'
       = Some {| parent_event_id := null_if_unset (of_option (parentEventId options));
                 parent_trace_id := null_if_unset (of_option (parentTraceId options));
                 parent_span_id := null_if_unset (of_option (parentSpanId options)) |}.
Proof.
  cbv zeta.
  apply (writeEvent_read_back sample_instance "log" _ _
           (sample_reading 1700000000000 "2023-11-14T22:13:20.000Z") empty_database).
  - vm_compute. reflexivity.
  - vm_compute. reflexivity.
  - vm_compute. reflexivity.
Defined.

(** C2, refuted as stated: an empty tags list is read back as no list,
    a tag with a comma is read back as two tags, a data member that is
    [undefined] or a function is gone, [NaN] is read back as [null], a Date
    as a text and negative zero as zero. *)
Lemma writeEvent_read_back_differs :
  let rd := sample_reading 1700000000000 "2023-11-14T22:13:20.000Z" in
  let written t payload :=
    createBaseEvent sample_instance "log" payload (with_component (tagged_options t)) rd in
  let read t payload :=
    queryEvents no_filters
      (snd (writeEvent sample_instance "log" payload (tagged_options t) rd empty_database)) in
  (exists e', read (Some []) (JsObject []) = Ok [e']
     /\ event_tags (event e') = js_undefined
     /\ event_tags (event (written (Some []) (JsObject []))) = js_val [])
  /\ (exists e', read (Some ["a,b"]) (JsObject []) = Ok [e']
        /\ event_tags (event e') = js_val ["a"; "b"]
        /\ event_tags (event (written (Some ["a,b"]) (JsObject []))) = js_val ["a,b"])
  /\ (exists e', read None (JsObject [("note", JsUndefined)]) = Ok [e']
        /\ data e' = JsObject []
        /\ data (written None (JsObject [("note", JsUndefined)]))
           = JsObject [("note", JsUndefined)])
  /\ (exists e', read None (JsObject [("v", JsNonFinite NaN)]) = Ok [e']
        /\ data e' = JsObject [("v", JsNull)]
        /\ data (written None (JsObject [("v", JsNonFinite NaN)]))
           = JsObject [("v", JsNonFinite NaN)])
  /\ (exists e', read None (JsObject [("at", JsDate "2023-11-14T22:13:20.000Z")]) = Ok [e']
        /\ data e' = JsObject [("at", JsString "2023-11-14T22:13:20.000Z")]
        /\ data (written None (JsObject [("at", JsDate "2023-11-14T22:13:20.000Z")]))
           = JsObject [("at", JsDate "2023-11-14T22:13:20.000Z")])
  /\ (exists e', read None (JsObject [("cb", JsFunction); ("z", JsNegativeZero)]) = Ok [e']
        /\ data e' = JsObject [("z", JsNumber 0)]
        /\ data (written None (JsObject [("cb", JsFunction); ("z", JsNegativeZero)]))
           = JsObject [("cb", JsFunction); ("z", JsNegativeZero)]).
Proof.
  cbv zeta. repeat split; eexists; (split; [vm_compute; reflexivity|]);
    split; reflexivity.
Qed.

End RoundTrip.


(** ** Machine identity (C6) *)

Section MachineIdentity.

Lemma initializeMachineId_override (idFile : string) (rnd : list Byte.byte) (w : World)
    (v : string) :
  supplied (env_MACHINE_ID w) = Some v ->
  env_MACHINE_ID w = Some v /\ initializeMachineId idFile rnd w = (Ok v, w).
Proof.
  unfold supplied, initializeMachineId. intros H.
  destruct (env_MACHINE_ID w) as [x|]; [|discriminate].
  destruct (JsString.truthy x); [|discriminate].
  inversion H; subst. split; reflexivity.
Qed.

Lemma initializeMachineId_no_override (idFile : string) (rnd : list Byte.byte) (w : World) :
  supplied (env_MACHINE_ID w) = None ->
  initializeMachineId idFile rnd w
  = match files w !! idFile with
    | Some content => (Ok (JsString.trim content), w)
    | None =>
        let newId := "constellation-" +:+ JsString.substring0 6 (JsString.hex rnd) in
        if creatable w idFile
        then (Ok newId, set_files (<[idFile := newId]> (files w)) w)
        else (Throw FsNoEntry, w)
    end.
Proof.
  unfold supplied, initializeMachineId. intros H.
  assert (Hrest :
    (if existsSync idFile w
     then let! content := readFileSync idFile in eff_ret (JsString.trim content)
     else let! _ := writeFileSync idFile
                      ("constellation-" +:+ JsString.substring0 6 (JsString.hex rnd)) in
          eff_ret ("constellation-" +:+ JsString.substring0 6 (JsString.hex rnd))) w
    = match files w !! idFile with
      | Some content => (Ok (JsString.trim content), w)
      | None =>
          if creatable w idFile
          then (Ok ("constellation-" +:+ JsString.substring0 6 (JsString.hex rnd)),
                set_files (<[idFile := "constellation-"
                                        +:+ JsString.substring0 6 (JsString.hex rnd)]>
                             (files w)) w)
          else (Throw FsNoEntry, w)
      end).
  { unfold existsSync, eff_bind, readFileSync, writeFileSync, existsSync, eff_ret.
    destruct (files w !! idFile) as [content|] eqn:Hfile;
      cbv beta; rewrite Hfile; [reflexivity|].
    cbn [orb]. destruct (creatable w idFile); reflexivity. }
  destruct (env_MACHINE_ID w) as [x|]; [|exact Hrest].
  destruct (JsString.truthy x); [discriminate | exact Hrest].
Qed.

(** C6: the override, when present (set to a non empty value), is
    returned as it is and the world is left untouched; otherwise the
    content of the identity file, when the file exists, is returned trimmed
    and the world is left untouched; otherwise the identifier
    ["constellation-"] followed by six hexadecimal digits is written to the
    identity file and returned.  No other call changes a file, and no other
    file is ever changed. *)
Theorem initializeMachineId_precedence (idFile : string) (rnd : list Byte.byte)
    (w : World) :
  (forall v, supplied (env_MACHINE_ID w) = Some v ->
     env_MACHINE_ID w = Some v /\ initializeMachineId idFile rnd w = (Ok v, w))
  /\ (forall content,
        supplied (env_MACHINE_ID w) = None -> files w !! idFile = Some content ->
        initializeMachineId idFile rnd w = (Ok (JsString.trim content), w))
  /\ (supplied (env_MACHINE_ID w) = None -> files w !! idFile = None ->
      creatable w idFile = true ->
      let suffix := JsString.substring0 6 (JsString.hex rnd) in
      initializeMachineId idFile rnd w
      = (Ok ("constellation-" +:+ suffix),
         set_files (<[idFile := "constellation-" +:+ suffix]> (files w)) w)
      /\ (List.length rnd = 3%nat -> String.length suffix = 6%nat))
  /\ (forall res w', initializeMachineId idFile rnd w = (res, w') ->
        files w' <> files w ->
        supplied (env_MACHINE_ID w) = None /\ files w !! idFile = None
        /\ files w' = <[idFile := "constellation-"
                                  +:+ JsString.substring0 6 (JsString.hex rnd)]> (files w)).
Proof.
  split; [intros v; apply initializeMachineId_override|].
  split.
  { intros content Henv Hfile. rewrite initializeMachineId_no_override by exact Henv.
    rewrite Hfile. reflexivity. }
  split.
  { intros Henv Hfile Hcreate suffix. split.
    - rewrite initializeMachineId_no_override by exact Henv.
      rewrite Hfile. cbv zeta. rewrite Hcreate. reflexivity.
    - intros Hlen. subst suffix. apply substring0_length.
      rewrite hex_length, Hlen. lia. }
  intros res w' Hrun Hchanged.
  destruct (supplied (env_MACHINE_ID w)) as [v|] eqn:Henv.
  - destruct (initializeMachineId_override idFile rnd w v Henv) as [_ Heq].
    rewrite Heq in Hrun. inversion Hrun; subst. contradiction.
  - rewrite initializeMachineId_no_override in Hrun by exact Henv.
    destruct (files w !! idFile) as [content|] eqn:Hfile.
    + inversion Hrun; subst. contradiction.
    + cbv zeta in Hrun. destruct (creatable w idFile).
      * inversion Hrun; subst. repeat split; reflexivity.
      * inversion Hrun; subst. contradiction.
Qed.

(** The three branches on a concrete world. *)
Lemma initializeMachineId_precedence_witness :
  let idFile := "/srv/data/.machine_id" in
  let on_disk := set_files {[ idFile := "  constellation-c0ffee" +:+ String "010" EmptyString ]}
                   (fresh_world (Some EmptyString)) in
  initializeMachineId idFile three_bytes (fresh_world (Some "box-7"))
    = (Ok "box-7", fresh_world (Some "box-7"))
  /\ initializeMachineId idFile three_bytes on_disk = (Ok "constellation-c0ffee", on_disk)
  /\ initializeMachineId idFile three_bytes (fresh_world None)
     = (Ok "constellation-0a1b2c",
        set_files {[ idFile := "constellation-0a1b2c" ]} (fresh_world None)).
Proof.
  cbv zeta. split; [|split].
  - apply (proj1 (initializeMachineId_precedence "/srv/data/.machine_id" three_bytes
                    (fresh_world (Some "box-7"))) "box-7").
    reflexivity.
  - apply (proj1 (proj2 (initializeMachineId_precedence "/srv/data/.machine_id"
                           three_bytes _))
             ("  constellation-c0ffee" +:+ String "010" EmptyString)).
    + reflexivity.
    + vm_compute. reflexivity.
  - apply (proj1 (proj2 (proj2 (initializeMachineId_precedence "/srv/data/.machine_id"
                                  three_bytes (fresh_world None))))).
    + reflexivity.
    + vm_compute. reflexivity.
    + reflexivity.
Defined.

End MachineIdentity.

(** ** The singleton (C8) *)

Section Singleton.

Lemma initializeMachineId_frame (idFile : string) (rnd : list Byte.byte) (w w' : World)
    (res : Result string) :
  initializeMachineId idFile rnd w = (res, w') ->
  heap w' = heap w /\ cwd w' = cwd w /\ observabilityInstance w' = observabilityInstance w.
Proof.
  intros H. destruct (supplied (env_MACHINE_ID w)) as [v|] eqn:Henv.
  - destruct (initializeMachineId_override idFile rnd w v Henv) as [_ Heq].
    rewrite Heq in H. inversion H; subst. auto.
  - rewrite initializeMachineId_no_override in H by exact Henv.
    destruct (files w !! idFile); [inversion H; subst; auto|].
    cbv zeta in H. destruct (creatable w idFile); inversion H; subst; auto.
Qed.

Lemma open_database_frame (path : string) (w w' : World) (res : Result unit) :
  open_database path w = (res, w') ->
  heap w' = heap w /\ cwd w' = cwd w /\ observabilityInstance w' = observabilityInstance w.
Proof.
  unfold open_database. intros H.
  destruct (databases w !! path); [inversion H; subst; auto|].
  destruct (creatable w path); inversion H; subst; auto.
Qed.

(** A successful construction allocates one instance, bound to the
    resolved directory, and leaves the singleton variable alone. *)
Lemma new_Observability_success (dir : string) (rnd : list Byte.byte) (w w' : World)
    (ref : nat) :
  new_Observability dir rnd w = (Ok ref, w') ->
  ref = List.length (heap w)
  /\ observabilityInstance w' = observabilityInstance w
  /\ exists o, heap w' = (heap w ++ [o])%list
       /\ dataDir o = path_resolve (cwd w) dir
       /\ db o = path_resolve (path_resolve (cwd w) dir) "observability.db".
Proof.
  unfold new_Observability, eff_bind. intros H.
  destruct (initializeMachineId _ rnd w) as [[mid|e] w1] eqn:Hmid; [|discriminate].
  destruct (open_database _ w1) as [[[]|e] w2] eqn:Hopen; [|discriminate].
  apply initializeMachineId_frame in Hmid as (Hh1 & _ & Hi1).
  apply open_database_frame in Hopen as (Hh2 & _ & Hi2).
  inversion H; subst. cbn. rewrite Hh2, Hh1, Hi2, Hi1.
  split; [reflexivity|]. split; [reflexivity|].
  eexists. split; [reflexivity|]. split; reflexivity.
Qed.

Lemma initialize_many_sticky (calls : list (option string * list Byte.byte)) (w : World)
    (ref : nat) :
  observabilityInstance w = Some ref ->
  initialize_many calls w = (map (fun _ => Ok ref) calls, w).
Proof.
  intros Hinst. induction calls as [|[dir rnd] rest IH]; [reflexivity|].
  cbn [initialize_many map]. unfold initializeObservability at 1.
  rewrite Hinst, IH. reflexivity.
Qed.

(** C8: once the singleton holds an instance, every call of
    [initializeObservability] returns that instance, whatever directory it
    is given, and changes nothing, so the instance built first, with the
    directory it was built on, stays the one in use; and
    [getObservability] called before any initialization builds the
    instance on the default directory ["data"]. *)
Theorem singleton_binds_first_directory (w : World) :
  (forall ref, observabilityInstance w = Some ref ->
     (forall dir rnd, initializeObservability dir rnd w = (Ok ref, w))
     /\ (forall rnd, getObservability rnd w = (Ok ref, w))
     /\ (forall calls, initialize_many calls w = (map (fun _ => Ok ref) calls, w)))
  /\ (observabilityInstance w = None ->
      forall dir rnd ref w1,
        initializeObservability dir rnd w = (Ok ref, w1) ->
        observabilityInstance w1 = Some ref
        /\ (exists o, heap w1 !! ref = Some o
              /\ dataDir o = path_resolve (cwd w) (default "data" dir))
        /\ (forall calls, initialize_many calls w1 = (map (fun _ => Ok ref) calls, w1)))
  /\ (observabilityInstance w = None ->
      forall rnd,
        getObservability rnd w = initializeObservability (Some "data") rnd w
        /\ getObservability rnd w = initializeObservability None rnd w
        /\ (forall ref w1, getObservability rnd w = (Ok ref, w1) ->
              observabilityInstance w1 = Some ref
              /\ exists o, heap w1 !! ref = Some o
                   /\ dataDir o = path_resolve (cwd w) "data")).
Proof.
  assert (Hfirst : forall dir rnd ref w1,
            observabilityInstance w = None ->
            initializeObservability dir rnd w = (Ok ref, w1) ->
            observabilityInstance w1 = Some ref
            /\ exists o, heap w1 !! ref = Some o
                 /\ dataDir o = path_resolve (cwd w) (default "data" dir)).
  { intros dir rnd ref w1 Hnone Hrun. unfold initializeObservability in Hrun.
    rewrite Hnone in Hrun.
    destruct (new_Observability (default "data" dir) rnd w) as [[r|e] w2] eqn:Hnew;
      [|discriminate].
    inversion Hrun; subst. split; [reflexivity|].
    apply new_Observability_success in Hnew as (-> & _ & o & Hheap & Hdir & _).
    exists o. split; [|exact Hdir].
    cbn. rewrite Hheap. apply list_lookup_middle. reflexivity. }
  split; [|split].
  - intros ref Hinst. split; [|split].
    + intros dir rnd. unfold initializeObservability. rewrite Hinst. reflexivity.
    + intros rnd. unfold getObservability. rewrite Hinst. reflexivity.
    + intros calls. apply initialize_many_sticky. exact Hinst.
  - intros Hnone dir rnd ref w1 Hrun.
    destruct (Hfirst dir rnd ref w1 Hnone Hrun) as [Hinst Hbound].
    split; [exact Hinst|]. split; [exact Hbound|].
    intros calls. apply initialize_many_sticky. exact Hinst.
  - intros Hnone rnd.
    assert (Heq : getObservability rnd w = initializeObservability None rnd w)
      by reflexivity.
    split; [reflexivity|]. split; [exact Heq|].
    intros ref w1 Hrun. rewrite Heq in Hrun.
    exact (Hfirst None rnd ref w1 Hnone Hrun).
Qed.

(** Two initializations in a row: the second directory is ignored; and
    the first call of [getObservability] in a fresh process. *)
Lemma singleton_binds_first_directory_witness :
  initializeObservability (Some "logs") three_bytes (fresh_world None)
    = (Ok 0%nat, world_after_first_call)
  /\ map dataDir (heap world_after_first_call) = ["/srv/logs"]
  /\ initializeObservability (Some "elsewhere") three_bytes world_after_first_call
     = (Ok 0%nat, world_after_first_call)
  /\ getObservability three_bytes world_after_first_call = (Ok 0%nat, world_after_first_call)
  /\ (forall ref w1, getObservability three_bytes (fresh_world None) = (Ok ref, w1) ->
        observabilityInstance w1 = Some ref
        /\ exists o, heap w1 !! ref = Some o /\ dataDir o = "/srv/data").
Proof.
  split; [vm_compute; reflexivity|]. split; [vm_compute; reflexivity|].
  pose proof (proj1 (singleton_binds_first_directory world_after_first_call) 0%nat eq_refl)
    as (Hinit & Hget & _).
  split; [apply Hinit|]. split; [apply Hget|].
  apply (proj2 (proj2 (singleton_binds_first_directory (fresh_world None))) eq_refl
           three_bytes).
Defined.

End Singleton.

(* ===================================================================== *)
(** * Further properties of the module *)
(* ===================================================================== *)

(** ** Shape of the identifiers *)

Section IdentifierShape.

Lemma string_compare_same (a : string) : String.compare a a = Eq.
Proof.
  induction a as [|c a IH]; simpl; [reflexivity|].
  now rewrite ascii_compare_refl.
Qed.

Lemma fixed36_length (dg : N -> ascii) (w : nat) :
  forall (n : N) (acc : string),
    String.length (fixed36 dg w n acc) = (w + String.length acc)%nat.
Proof.
  induction w as [|w IH]; intros n acc; simpl; [reflexivity|].
  rewrite IH. simpl. lia.
Qed.

Lemma upper_digit_alnum (d : N) : (d < 36)%N -> is_upper_alnum (upper_digit d) = true.
Proof.
  intros Hd. unfold is_upper_alnum. rewrite upper_digit_code by exact Hd.
  destruct (N.ltb_spec d 10).
  - apply orb_true_iff. left. apply andb_true_iff. split; apply N.leb_le; lia.
  - apply orb_true_iff. right. apply andb_true_iff. split; apply N.leb_le; lia.
Qed.

Lemma fixed36_alnum (w : nat) :
  forall (n : N) (acc : string),
    string_forall is_upper_alnum acc = true ->
    string_forall is_upper_alnum (fixed36 upper_digit w n acc) = true.
Proof.
  induction w as [|w IH]; intros n acc Hacc; simpl; [exact Hacc|].
  apply IH. simpl. rewrite Hacc, upper_digit_alnum; [reflexivity|].
  apply N.mod_lt. lia.
Qed.

Lemma upper_char_hex (c : ascii) :
  is_hex_lower c = true -> is_upper_alnum (JsString.upper_char c) = true.
Proof.
  destruct c as [[] [] [] [] [] [] [] []]; vm_compute; intros H;
    reflexivity || discriminate H.
Qed.

Lemma digit_char_hex (d : N) : (d < 16)%N -> is_hex_lower (JsString.digit_char d) = true.
Proof.
  intros Hd.
  assert (Hcases : (d = 0 \/ d = 1 \/ d = 2 \/ d = 3 \/ d = 4 \/ d = 5 \/ d = 6 \/ d = 7
                    \/ d = 8 \/ d = 9 \/ d = 10 \/ d = 11 \/ d = 12 \/ d = 13 \/ d = 14
                    \/ d = 15)%N) by lia.
  repeat (destruct Hcases as [->|Hcases]; [reflexivity|]). subst d. reflexivity.
Qed.

Lemma byte_to_N_small (b : Byte.byte) : (Byte.to_N b < 256)%N.
Proof. destruct b; vm_compute; reflexivity. Qed.

Lemma hex_is_hex (bs : list Byte.byte) :
  string_forall is_hex_lower (JsString.hex bs) = true.
Proof.
  induction bs as [|b bs IH]; simpl; [reflexivity|].
  pose proof (byte_to_N_small b) as Hb.
  rewrite IH, !digit_char_hex; [reflexivity| |].
  - apply N.mod_lt. lia.
  - apply N.Div0.div_lt_upper_bound. exact Hb.
Qed.

Lemma substring0_forall (p : ascii -> bool) (m : nat) :
  forall s, string_forall p s = true ->
    string_forall p (JsString.substring0 m s) = true.
Proof.
  unfold JsString.substring0.
  induction m as [|m IH]; intros [|c s] H; simpl in *; try reflexivity.
  apply andb_true_iff in H as [Hc Hs]. rewrite Hc, (IH s Hs). reflexivity.
Qed.

Lemma toUpperCase_hex_alnum (s : string) :
  string_forall is_hex_lower s = true ->
  string_forall is_upper_alnum (JsString.toUpperCase s) = true.
Proof.
  induction s as [|c s IH]; simpl; [reflexivity|].
  intros H. apply andb_true_iff in H as [Hc Hs].
  rewrite (upper_char_hex c Hc), (IH Hs). reflexivity.
Qed.

(** X1: an identifier is 26 characters long and is made of decimal
    digits and uppercase letters only. *)
Theorem generateULID_fixed_width (r : IdReading) :
  reading_ok r ->
  String.length (generateULID r) = 26%nat
  /\ string_forall is_upper_alnum (generateULID r) = true.
Proof.
  intros Hok. rewrite (generateULID_shape r Hok). split.
  - rewrite fixed36_length, (random_part_length r (proj2 Hok)). reflexivity.
  - apply fixed36_alnum. unfold random_part.
    apply toUpperCase_hex_alnum, substring0_forall, hex_is_hex.
Qed.

Lemma generateULID_fixed_width_witness :
  String.length (generateULID (id_reading (sample_reading 1700000000000 EmptyString)))
    = 26%nat
  /\ string_forall is_upper_alnum
       (generateULID (id_reading (sample_reading 1700000000000 EmptyString))) = true.
Proof.
  apply generateULID_fixed_width. split; [vm_compute; discriminate | reflexivity].
Defined.

(** X2: two identifiers are equal exactly when they were drawn in the
    same millisecond with the same twelve random characters. *)
Theorem generateULID_collision (r1 r2 : IdReading) :
  reading_ok r1 -> reading_ok r2 ->
  (generateULID r1 = generateULID r2
   <-> date_now r1 = date_now r2 /\ random_part r1 = random_part r2).
Proof.
  intros H1 H2. split.
  - intros Heq.
    assert (Hnow : date_now r1 = date_now r2).
    { destruct (N.lt_trichotomy (date_now r1) (date_now r2)) as [Hlt|[Hnow|Hgt]];
        [|exact Hnow|].
      - pose proof (generateULID_lt_across_ticks r1 r2 H1 H2 Hlt) as Hcmp.
        unfold JsString.lt in Hcmp. rewrite Heq in Hcmp.
        rewrite string_compare_same in Hcmp. discriminate.
      - pose proof (generateULID_lt_across_ticks r2 r1 H2 H1 Hgt) as Hcmp.
        unfold JsString.lt in Hcmp. rewrite Heq in Hcmp.
        rewrite string_compare_same in Hcmp. discriminate. }
    split; [exact Hnow|].
    pose proof (generateULID_same_tick r1 r2 H1 H2 Hnow) as Hcmp.
    rewrite Heq in Hcmp.
    apply String.compare_eq_iff. rewrite <- Hcmp. apply string_compare_same.
  - intros [Hnow Hrand].
    rewrite (generateULID_shape r1 H1), (generateULID_shape r2 H2), Hnow, Hrand.
    reflexivity.
Qed.

Lemma generateULID_collision_witness :
  generateULID (reading_with_tail Byte.x00 Byte.x00)
    = generateULID (reading_with_tail Byte.xff Byte.xff)
  <-> date_now (reading_with_tail Byte.x00 Byte.x00)
        = date_now (reading_with_tail Byte.xff Byte.xff)
      /\ random_part (reading_with_tail Byte.x00 Byte.x00)
         = random_part (reading_with_tail Byte.xff Byte.xff).
Proof.
  apply generateULID_collision; (split; [vm_compute; discriminate | reflexivity]).
Defined.

Lemma substring0_hex (k : nat) :
  forall bs, JsString.substring0 (2 * k) (JsString.hex bs) = JsString.hex (firstn k bs).
Proof.
  unfold JsString.substring0.
  induction k as [|k IH]; intros [|b bs]; try reflexivity.
  replace (2 * S k)%nat with (S (S (2 * k))) by lia.
  cbn [JsString.hex firstn String.substring]. rewrite IH. reflexivity.
Qed.

(** X3: of the eight random bytes drawn only the first six reach the
    identifier: two readings of the same millisecond that agree on them
    give the same identifier. *)
Theorem generateULID_uses_six_bytes (r1 r2 : IdReading) :
  date_now r1 = date_now r2 ->
  firstn 6 (random_bytes r1) = firstn 6 (random_bytes r2) ->
  generateULID r1 = generateULID r2.
Proof.
  intros Hnow Hbytes. unfold generateULID.
  change 12%nat with (2 * 6)%nat. rewrite !substring0_hex, Hnow, Hbytes. reflexivity.
Qed.

Lemma generateULID_uses_six_bytes_witness :
  generateULID (reading_with_tail Byte.x00 Byte.x00)
  = generateULID (reading_with_tail Byte.xff Byte.xff).
Proof. apply generateULID_uses_six_bytes; reflexivity. Defined.

End IdentifierShape.

(** ** The table under the writers *)

Section TableInvariants.

Lemma existsb_eqb_in (id : string) (l : list string) :
  existsb (String.eqb id) l = true <-> In id l.
Proof.
  rewrite existsb_exists. split.
  - intros (x & Hin & Heq). apply String.eqb_eq in Heq. now subst.
  - intros Hin. exists id. split; [exact Hin | apply String.eqb_refl].
Qed.

Lemma bind_event_fields (e : OmniEvent) (r : Row) :
  bind_event e = Some r ->
  row_event_id r = event_id e
  /\ row_ts r = ts e
  /\ row_schema_version r = schema_version e
  /\ row_machine_id r = machine_id (machine e)
  /\ row_event_kind r = event_kind (event e)
  /\ row_source_component r = source_component (source e)
  /\ row_context_session_id r = bind_text (context_session_id (context e))
  /\ row_event_tags r = tags_column (event_tags (event e))
  /\ JSON_stringify (data e) = Some (row_data r).
Proof.
  unfold bind_event. destruct (JSON_stringify (data e)) as [doc|]; [|discriminate].
  intros H. inversion H; subst. cbn. repeat split; reflexivity.
Qed.

Lemma NoDup_snoc (l : list string) (x : string) :
  NoDup l -> ~ In x l -> NoDup (l ++ [x])%list.
Proof.
  intros Hnd Hx. apply NoDup_app. split; [exact Hnd|]. split.
  - intros y Hy Hin. apply list_elem_of_singleton in Hin. subst y.
    apply Hx, list_elem_of_In, Hy.
  - apply NoDup_singleton.
Qed.

(** X4: [writeEvent] only ever appends.  When it returns an identifier,
    the table is the table before followed by one row, that row carries the
    identifier returned, and no row stored before carried it; when it
    throws, the table holds the rows it held before.  Either way the stored
    identifiers, pairwise distinct before, are pairwise distinct after. *)
Theorem writeEvent_append_only (this : Observability) (kind : string) (payload : JsValue)
    (options : WriteOptions) (rd : WriteReading) (d d1 : Database)
    (res : Result string) :
  primary_key_ok d ->
  writeEvent this kind payload options rd d = (res, d1) ->
  match res with
  | Ok id =>
      exists r, rows d1 = (rows d ++ [r])%list
        /\ row_event_id r = id
        /\ ~ In id (map row_event_id (rows d))
  | Throw _ => rows d1 = rows d
  end
  /\ primary_key_ok d1.
Proof.
  unfold primary_key_ok. intros Hnd H. destruct res as [id|err].
  - apply writeEvent_success in H. cbv zeta in H.
    destruct H as (Hid & r & Hb & Hfresh & Hrows).
    apply bind_event_fields in Hb as (Hrid & _). rewrite <- Hid in Hrid.
    rewrite Hrid in Hfresh.
    assert (Hnew : ~ In id (map row_event_id (rows d))).
    { intros Hin. apply existsb_eqb_in in Hin. congruence. }
    split.
    + exists r. auto.
    + rewrite Hrows, map_app. cbn [map]. rewrite Hrid.
      apply NoDup_snoc; assumption.
  - unfold writeEvent, eff_bind, writeEventToDb in H.
    destruct (stmt_run_insert _ _ d) as [[[]|e] d2] eqn:Hrun; [discriminate|].
    inversion H; subst.
    apply stmt_run_insert_failure in Hrun as [Hrows _].
    rewrite Hrows. split; [reflexivity | exact Hnd].
Qed.

Lemma writeEvent_append_only_witness :
  exists r, rows (snd write_on_ten_events) = (rows ten_events ++ [r])%list
    /\ row_event_id r = "000000LOYW3V280123456789AB"
    /\ ~ In "000000LOYW3V280123456789AB" (map row_event_id (rows ten_events)).
Proof.
  refine (proj1 (writeEvent_append_only sample_instance "log" (JsObject [("n", JsNumber 1)])
                   plain_options
                   (sample_reading 1700000000000 "2023-11-14T22:13:20.000Z")
                   ten_events (snd write_on_ten_events)
                   (Ok "000000LOYW3V280123456789AB") _ _)).
  - unfold primary_key_ok. apply (bool_decide_unpack _). vm_compute. reflexivity.
  - vm_compute. reflexivity.
Defined.

(** X5: an identifier that is already stored is refused: with no fault of
    the engine and a payload JSON can carry, [writeEvent] fails on the
    primary key, whatever else the new event holds, and stores nothing. *)
Theorem writeEvent_duplicate_identifier (this : Observability) (kind : string)
    (payload : JsValue) (options : WriteOptions) (rd : WriteReading) (d : Database) :
  In (generateULID (id_reading rd)) (map row_event_id (rows d)) ->
  storage_fault rd = None ->
  JSON_stringify payload <> None ->
  writeEvent this kind payload options rd d
  = (Throw SqliteConstraintPrimaryKey, count_insert d).
Proof.
  intros Hin Hfault Hjson.
  unfold writeEvent, eff_bind, writeEventToDb, stmt_run_insert. rewrite Hfault.
  destruct (bind_event _) as [r|] eqn:Hb.
  - apply bind_event_fields in Hb as (Hid & _). rewrite Hid. cbn [event_id createBaseEvent].
    rewrite (proj2 (existsb_eqb_in _ _) Hin). reflexivity.
  - unfold bind_event in Hb. cbn [data createBaseEvent] in Hb.
    destruct (JSON_stringify payload); [discriminate | contradiction].
Qed.

Lemma writeEvent_duplicate_identifier_witness :
  let rd := sample_reading 1700000000000 "2023-11-14T22:13:20.000Z" in
  let d := snd (writeEvent sample_instance "log" (JsObject []) plain_options rd
                  empty_database) in
  writeEvent sample_instance "metric" (JsObject [("value", JsNumber 1)]) plain_options rd d
  = (Throw SqliteConstraintPrimaryKey, count_insert d).
Proof.
  cbv zeta. apply writeEvent_duplicate_identifier.
  - vm_compute. left. reflexivity.
  - reflexivity.
  - discriminate.
Defined.

End TableInvariants.

(** ** Writing, then reading *)

Section WriteThenRead.

(** X6: an event written through [writeEvent] is found by the query
    that filters on its own kind, session and machine together. *)
Theorem writeEvent_then_query (this : Observability) (kind : string) (payload : JsValue)
    (options : WriteOptions) (rd : WriteReading) (d d1 : Database) (id : string) :
  writeEvent this kind payload options rd d = (Ok id, d1) ->
  exists l e,
    queryEvents (filters_for (Some kind) (sessionId options) (Some (getMachineId this))) d1
      = Ok l
    /\ In e l
    /\ event_id e = id
    /\ event_kind (event e) = kind
    /\ machine_id (machine e) = getMachineId this.
Proof.
  intros H. apply writeEvent_success in H. cbv zeta in H.
  destruct H as (Hid & r & Hb & _ & Hrows).
  apply bind_event_fields in Hb
    as (Hrid & _ & _ & Hmachine & Hkind & _ & Hsession & _).
  cbn [createBaseEvent event_id machine machine_id event event_kind context
       context_session_id] in *.
  exists (map row_to_event
            (matching_rows (filters_for (Some kind) (sessionId options)
                              (Some (getMachineId this))) d1)),
         (row_to_event r).
  split; [rewrite queryEvents_spec; reflexivity|].
  split.
  - apply in_map. unfold matching_rows. apply (proj2 (in_order_by_ts_desc _ _)).
    apply filter_In. split.
    + rewrite Hrows. apply in_or_app. right. left. reflexivity.
    + unfold satisfies_filters, holds_if_supplied, supplied, filters_for, getMachineId.
      cbn [filter_kind filter_session_id filter_machine_id filter_start_ts filter_end_ts].
      cbn [with_component base_sessionId] in Hsession.
      rewrite Hkind, Hmachine, Hsession.
      destruct (JsString.truthy kind), (JsString.truthy (machineId this)),
        (sessionId options) as [s|];
        cbn; try destruct (JsString.truthy s); cbn;
        rewrite ?String.eqb_refl; reflexivity.
  - cbn. rewrite Hrid, Hkind, Hmachine, Hid. repeat split; reflexivity.
Qed.

Lemma writeEvent_then_query_witness :
  let options := {| sessionId := Some "S1"; actor := None; phase := None;
                    component := None; tags := None; parentEventId := None;
                    parentTraceId := None; parentSpanId := None |} in
  let rd := sample_reading 1700000000000 "2023-11-14T22:13:20.000Z" in
  let d1 := snd (writeEvent sample_instance "metric" (JsObject []) options rd ten_events) in
  exists l e,
    queryEvents (filters_for (Some "metric") (sessionId options)
                   (Some (getMachineId sample_instance))) d1 = Ok l
    /\ In e l
    /\ event_id e = "000000LOYW3V280123456789AB"
    /\ event_kind (event e) = "metric"
    /\ machine_id (machine e) = getMachineId sample_instance.
Proof.
  cbv zeta.
  apply (writeEvent_then_query sample_instance "metric" (JsObject []) _
           (sample_reading 1700000000000 "2023-11-14T22:13:20.000Z") ten_events).
  vm_compute. reflexivity.
Defined.

(** X7: whatever its tags and its payload, an event written through
    [writeEvent] comes back from the query with its identifier, timestamp,
    schema version, machine, kind, component (never empty), session and
    parent links as written, unset ones read as [null], and with the data
    [JSON.parse] gives for the stored document. *)
Theorem writeEvent_read_back_envelope (this : Observability) (kind : string)
    (payload : JsValue) (options : WriteOptions) (rd : WriteReading)
    (d d1 : Database) (id : string) :
  writeEvent this kind payload options rd d = (Ok id, d1) ->
  exists l e doc,
    queryEvents no_filters d1 = Ok l
    /\ In e l
    /\ event_id e = id
    /\ id = generateULID (id_reading rd)
    /\ schema_version e = "1.0"
    /\ ts e = iso_now rd
    /\ machine e = {| machine_id := machineId this; machine_hostname := js_null |}
    /\ event_kind (event e) = kind
    /\ source e = {| source_component := or_else (component options) "constellation";
                     source_version := js_null |}
    /\ source_component (source e) <> EmptyString
    /\ context e = {| context_session_id := null_if_unset (of_option (sessionId options));
                      context_actor := null_if_unset (of_option (actor options));
                      context_phase := null_if_unset (of_option (phase options)) |}
    /\ parent e
       = Some {| parent_event_id := null_if_unset (of_option (parentEventId options));
                 parent_trace_id := null_if_unset (of_option (parentTraceId options));
                 parent_span_id := null_if_unset (of_option (parentSpanId options)) |}
    /\ JSON_stringify payload = Some doc
    /\ data e = JSON_parse doc.
Proof.
  intros H. apply writeEvent_success in H. cbv zeta in H.
  destruct H as (Hid & r & Hb & _ & Hrows).
  unfold bind_event in Hb. cbn [data createBaseEvent] in Hb.
  destruct (JSON_stringify payload) as [doc|] eqn:Hdoc; [|discriminate].
  inversion Hb as [Hr]; clear Hb.
  exists (map row_to_event (order_by_ts_desc (rows d1))), (row_to_event r), doc.
  split; [apply queryEvents_no_filters|].
  split.
  { apply in_map, (proj2 (in_order_by_ts_desc _ _)). rewrite Hrows.
    apply in_or_app. right. left. reflexivity. }
  subst r. cbn. rewrite Hid. cbn.
  repeat split; try reflexivity.
  unfold or_else. destruct (component options) as [s|]; [|discriminate].
  destruct (JsString.truthy s) eqn:Ht; [|discriminate].
  intros ->. discriminate.
Qed.

Lemma writeEvent_read_back_envelope_witness :
  let rd := sample_reading 1700000000000 "2023-11-14T22:13:20.000Z" in
  let payload := JsObject [("note", JsUndefined)] in
  let options := tagged_options (Some ["a,b"]) in
  let d1 := snd (writeEvent sample_instance "log" payload options rd empty_database) in
  exists l e doc,
    queryEvents no_filters d1 = Ok l
    /\ In e l
    /\ event_id e = "000000LOYW3V280123456789AB"
    /\ "000000LOYW3V280123456789AB" = generateULID (id_reading rd)
    /\ schema_version e = "1.0"
    /\ ts e = iso_now rd
    /\ machine e = {| machine_id := machineId sample_instance; machine_hostname := js_null |}
    /\ event_kind (event e) = "log"
    /\ source e = {| source_component := or_else (component options) "constellation";
                     source_version := js_null |}
    /\ source_component (source e) <> EmptyString
    /\ context e = {| context_session_id := null_if_unset (of_option (sessionId options));
                      context_actor := null_if_unset (of_option (actor options));
                      context_phase := null_if_unset (of_option (phase options)) |}
    /\ parent e
       = Some {| parent_event_id := null_if_unset (of_option (parentEventId options));
                 parent_trace_id := null_if_unset (of_option (parentTraceId options));
                 parent_span_id := null_if_unset (of_option (parentSpanId options)) |}
    /\ JSON_stringify payload = Some doc
    /\ data e = JSON_parse doc.
Proof.
  cbv zeta.
  apply (writeEvent_read_back_envelope sample_instance "log" _ _
           (sample_reading 1700000000000 "2023-11-14T22:13:20.000Z") empty_database).
  vm_compute. reflexivity.
Defined.

End WriteThenRead.

(** ** What the typed writers store *)

Section TypedWriterRows.

Lemma member_set_prop_same (k : string) (v : JsValue) (j : Json) (o : JsRecord) :
  JSON_stringify v = Some j ->
  json_member_list k (stringify_members (set_prop k v o)) = Some j.
Proof.
  intros Hv. induction o as [|[k' v'] r IH].
  - cbn [set_prop]. rewrite stringify_members_cons, Hv. cbn.
    now rewrite String.eqb_refl.
  - cbn [set_prop]. destruct (String.eqb_spec k k') as [->|Hne].
    + rewrite stringify_members_cons, Hv. cbn. now rewrite String.eqb_refl.
    + rewrite stringify_members_cons.
      destruct (JSON_stringify v'); [|exact IH].
      cbn. apply String.eqb_neq in Hne. rewrite Hne. exact IH.
Qed.

(** The row a typed writer stores, spelled out. *)
Lemma typed_writer_stored_row (this : Observability) (kind : string) (props : JsRecord)
    (options : WriteOptions) (rd : WriteReading) (d d1 : Database) (id : string) :
  writeEvent this kind (JsObject props) options rd d = (Ok id, d1) ->
  id = generateULID (id_reading rd)
  /\ rows d1
     = (rows d
        ++ [ {| row_schema_version := "1.0";
                row_ts := iso_now rd;
                row_event_id := generateULID (id_reading rd);
                row_machine_id := machineId this;
                row_machine_hostname := None;
                row_context_session_id := sessionId options;
                row_context_actor := actor options;
                row_context_phase := phase options;
                row_event_kind := kind;
                row_event_tags := tags_column (of_option (tags options));
                row_source_component := or_else (component options) "constellation";
                row_source_version := None;
                row_data := JObject (stringify_members props);
                row_parent_event_id := parentEventId options;
                row_parent_trace_id := parentTraceId options;
                row_parent_span_id := parentSpanId options |} ])%list.
Proof.
  intros H. apply writeEvent_success in H. cbv zeta in H.
  destruct H as (Hid & r & Hb & _ & Hrows).
  split; [exact Hid|]. rewrite Hrows. f_equal. f_equal.
  unfold bind_event in Hb. cbn [data createBaseEvent] in Hb.
  rewrite JSON_stringify_object in Hb. inversion Hb as [Hr]. cbn.
  destruct (sessionId options), (actor options), (phase options),
    (parentEventId options), (parentTraceId options), (parentSpanId options);
    reflexivity.
Qed.

(** X8: [writeToolExecute] stores the phase in the envelope and in the
    data; in the phase [before] the data has neither [result] nor
    [duration_ms], even when the caller passed them; in the phase [after]
    it has exactly those the caller passed. *)
Theorem writeToolExecute_phase_fields (this : Observability) (toolName : string)
    (args : JsRecord) (ph : Phase) (options : ToolExecuteOptions) (rd : WriteReading)
    (d d1 : Database) (id : string) :
  writeToolExecute this toolName args ph options rd d = (Ok id, d1) ->
  exists r, rows d1 = (rows d ++ [r])%list
    /\ row_context_phase r = Some (phase_text ph)
    /\ json_member "phase" (row_data r) = Some (JString (phase_text ph))
    /\ match ph with
       | Before =>
           json_member "result" (row_data r) = None
           /\ json_member "duration_ms" (row_data r) = None
       | After =>
           json_member "result" (row_data r) = JSON_stringify (te_result options)
           /\ json_member "duration_ms" (row_data r)
              = option_map JNumber (te_duration_ms options)
       end.
Proof.
  intros H. unfold writeToolExecute in H.
  apply typed_writer_stored_row in H as [_ Hrows].
  eexists. split; [exact Hrows|]. cbn [row_context_phase row_data json_member
                                       typed_options phase].
  split; [reflexivity|].
  unfold writeToolExecute_data.
  destruct ph.
  - split; [|split]; skip_assignments;
      destruct (te_sessionId options), (te_agent options); reflexivity.
  - split; [|split]; skip_assignments.
    + destruct (te_sessionId options), (te_agent options); reflexivity.
    + unfold assign_defined.
      destruct (te_result options) eqn:Hres;
        try (erewrite member_set_prop_same by reflexivity; reflexivity);
        destruct (te_sessionId options), (te_agent options); reflexivity.
    + unfold assign_number. destruct (te_duration_ms options) as [z|].
      * erewrite member_set_prop_same by reflexivity. reflexivity.
      * rewrite member_assign_defined by reflexivity.
        destruct (te_sessionId options), (te_agent options); reflexivity.
Qed.

Lemma writeToolExecute_phase_fields_witness :
  let rd := sample_reading 1700000000000 "2023-11-14T22:13:20.000Z" in
  let d1 := snd (writeToolExecute sample_instance "db-query" [] Before
                   sample_tool_options rd empty_database) in
  exists r, rows d1 = (rows empty_database ++ [r])%list
    /\ row_context_phase r = Some (phase_text Before)
    /\ json_member "phase" (row_data r) = Some (JString (phase_text Before))
    /\ json_member "result" (row_data r) = None
    /\ json_member "duration_ms" (row_data r) = None.
Proof.
  cbv zeta.
  apply (writeToolExecute_phase_fields sample_instance "db-query" [] Before
           sample_tool_options
           (sample_reading 1700000000000 "2023-11-14T22:13:20.000Z") empty_database _
           "000000LOYW3V280123456789AB").
  vm_compute. reflexivity.
Defined.

(** X9: the row a typed writer stores carries the identifier the writer
    returns, the machine of the instance, the schema version, the
    timestamp read, the fixed component of the writer, no actor, and the
    session of the call both in the envelope and in the data member that
    names it. *)
Theorem typed_writers_envelope (this : Observability) (c : WriterCall)
    (rd : WriteReading) (d d1 : Database) (id : string) :
  run_writer this c rd d = (Ok id, d1) ->
  exists r, rows d1 = (rows d ++ [r])%list
    /\ row_event_id r = id
    /\ row_machine_id r = getMachineId this
    /\ row_schema_version r = "1.0"
    /\ row_ts r = iso_now rd
    /\ row_source_component r = call_component c
    /\ row_context_actor r = None
    /\ row_context_session_id r = call_context_session c
    /\ json_member (call_session_field c) (row_data r)
       = option_map JString (call_context_session c).
Proof.
  intros H.
  destruct c; cbn [run_writer] in H;
    unfold writeToolExecute, writeHookFired, writeAgentSpawned, writeSkillLoaded,
      writeCommandExecuted, writePluginEvent, writeError, writeMetric, writeSpan,
      writeSessionStart, writeSessionEnd, writeSessionSummary in H;
    apply typed_writer_stored_row in H as [Hid Hrows];
    (eexists; split; [exact Hrows|]);
    cbn [row_event_id row_machine_id row_schema_version row_ts row_source_component
         row_context_actor row_context_session_id row_data json_member
         typed_options writeError_options component actor sessionId or_else
         call_component call_context_session call_sessionId call_session_field
         getMachineId];
    (split; [symmetry; exact Hid|]); (split; [reflexivity|]);
    (split; [reflexivity|]); (split; [reflexivity|]); (split; [reflexivity|]);
    (split; [reflexivity|]); (split; [reflexivity|]).
  all: try (unfold writeToolExecute_data; destruct ph).
  all: unfold writeHookFired_data, writeAgentSpawned_data, writeSkillLoaded_data,
         writeCommandExecuted_data, writePluginEvent_data, writeError_data,
         writeMetric_data, writeSpan_data, writeSessionStart_data,
         writeSessionEnd_data, writeSessionSummary_data.
  all: skip_assignments.
  all: repeat match goal with
              | |- context [js_string_opt ?x] => destruct x; cbn [js_string_opt]
              end.
  all: reflexivity.
Qed.

Lemma typed_writers_envelope_witness :
  let c := CallAgentSpawned "reviewer" "S1" "S2"
             {| as_agentMode := None; as_model := None; as_toolsEnabled := None;
                as_links := no_links |} in
  let rd := sample_reading 1700000000000 "2023-11-14T22:13:20.000Z" in
  let d1 := snd (run_writer sample_instance c rd empty_database) in
  exists r, rows d1 = (rows empty_database ++ [r])%list
    /\ row_event_id r = "000000LOYW3V280123456789AB"
    /\ row_machine_id r = getMachineId sample_instance
    /\ row_schema_version r = "1.0"
    /\ row_ts r = iso_now rd
    /\ row_source_component r = call_component c
    /\ row_context_actor r = None
    /\ row_context_session_id r = call_context_session c
    /\ json_member (call_session_field c) (row_data r)
       = option_map JString (call_context_session c).
Proof.
  cbv zeta.
  apply (typed_writers_envelope sample_instance _
           (sample_reading 1700000000000 "2023-11-14T22:13:20.000Z") empty_database).
  vm_compute. reflexivity.
Defined.

(** X22: only [writeToolExecute] stores a phase and only [writeError]
    stores tags: the rows of all other typed writers have neither. *)
Theorem typed_writers_phase_and_tags (this : Observability) (c : WriterCall)
    (rd : WriteReading) (d d1 : Database) (id : string) :
  run_writer this c rd d = (Ok id, d1) ->
  exists r, rows d1 = (rows d ++ [r])%list
    /\ row_context_phase r
       = match c with
         | CallToolExecute _ _ ph _ => Some (phase_text ph)
         | _ => None
         end
    /\ row_event_tags r
       = match c with
         | CallError errorType _ _ => Some ("error," +:+ errorType)
         | _ => None
         end.
Proof.
  intros H.
  destruct c; cbn [run_writer] in H;
    unfold writeToolExecute, writeHookFired, writeAgentSpawned, writeSkillLoaded,
      writeCommandExecuted, writePluginEvent, writeError, writeMetric, writeSpan,
      writeSessionStart, writeSessionEnd, writeSessionSummary in H;
    apply typed_writer_stored_row in H as [_ Hrows];
    (eexists; split; [exact Hrows|]); split; reflexivity.
Qed.

Lemma typed_writers_phase_and_tags_witness :
  let c := CallError "db,timeout" "no answer" plain_error_options in
  let rd := sample_reading 1700000000000 "2023-11-14T22:13:20.000Z" in
  let d1 := snd (run_writer sample_instance c rd empty_database) in
  exists r, rows d1 = (rows empty_database ++ [r])%list
    /\ row_context_phase r = None
    /\ row_event_tags r = Some "error,db,timeout".
Proof.
  cbv zeta.
  apply (typed_writers_phase_and_tags sample_instance
           (CallError "db,timeout" "no answer" plain_error_options)
           (sample_reading 1700000000000 "2023-11-14T22:13:20.000Z") empty_database _
           "000000LOYW3V280123456789AB").
  vm_compute. reflexivity.
Defined.

End TypedWriterRows.

(** ** Shape of the query results *)

Section QueryResults.

Lemma in_firstn (n : nat) : forall (l : list Row) (x : Row), In x (firstn n l) -> In x l.
Proof.
  induction n as [|n IH]; intros [|y l] x H; simpl in *; try contradiction.
  destruct H as [->|H]; [left; reflexivity | right; apply IH; exact H].
Qed.

Lemma in_skipn (n : nat) : forall (l : list Row) (x : Row), In x (skipn n l) -> In x l.
Proof.
  induction n as [|n IH]; intros [|y l] x H; simpl in *; try contradiction; auto.
Qed.

Lemma in_sql_limit (n : Z) (l : list Row) (x : Row) : In x (sql_limit n l) -> In x l.
Proof. unfold sql_limit. destruct (n <? 0)%Z; [auto | apply in_firstn]. Qed.

Lemma in_matching_rows (f : QueryFilters) (d : Database) (r : Row) :
  In r (matching_rows f d) <-> In r (rows d) /\ satisfies_filters f r = true.
Proof. unfold matching_rows. rewrite in_order_by_ts_desc. apply filter_In. Qed.

(** The events returned are those of selected rows, each of them stored
    and satisfying the filters, whatever the limit and the offset. *)
Lemma queryEvents_rows (f : QueryFilters) (d : Database) (l : list OmniEvent) :
  queryEvents f d = Ok l ->
  exists selected, l = map row_to_event selected
    /\ (forall r, In r selected -> In r (matching_rows f d)).
Proof.
  rewrite queryEvents_spec. unfold paginate.
  destruct (supplied_number (filter_limit f)) as [n|],
           (supplied_number (filter_offset f)) as [o|];
    intros H; inversion H; subst; clear H; eexists; (split; [reflexivity|]);
    intros r Hin.
  - apply in_sql_limit in Hin. unfold sql_offset in Hin. now apply in_skipn in Hin.
  - now apply in_sql_limit in Hin.
  - exact Hin.
Qed.

Lemma split_comma_not_nil (s : string) : JsString.split_comma s <> [].
Proof.
  destruct s as [|c s]; [discriminate|]. simpl.
  destruct (Ascii.eqb c ","); [discriminate|].
  destruct (JsString.split_comma s); discriminate.
Qed.

(** X10: an event returned by [queryEvents] has either no tags at all
    ([undefined]) or a tags list with at least one tag; it never has an
    empty list and never [null]; and it comes from a stored row that
    satisfies the filters. *)
Theorem queryEvents_tags_shape (f : QueryFilters) (d : Database)
    (l : list OmniEvent) (e : OmniEvent) :
  queryEvents f d = Ok l -> In e l ->
  (event_tags (event e) = js_undefined
   \/ exists t more, event_tags (event e) = js_val (t :: more))
  /\ exists r, In r (rows d) /\ satisfies_filters f r = true /\ e = row_to_event r.
Proof.
  intros Hq Hin. apply queryEvents_rows in Hq as (selected & -> & Hsel).
  apply in_map_iff in Hin as (r & <- & Hr). split.
  - cbn. unfold tags_of_column. destruct (row_event_tags r) as [s|]; [|left; reflexivity].
    destruct (JsString.truthy s); [|left; reflexivity].
    right. destruct (JsString.split_comma s) as [|t more] eqn:Hsplit.
    + exfalso. exact (split_comma_not_nil s Hsplit).
    + exists t, more. reflexivity.
  - exists r. apply Hsel, in_matching_rows in Hr as [Hstored Hsat]. auto.
Qed.

Lemma queryEvents_tags_shape_witness :
  let e := row_to_event (fixture_row "9") in
  (event_tags (event e) = js_undefined
   \/ exists t more, event_tags (event e) = js_val (t :: more))
  /\ exists r, In r (rows ten_events) /\ satisfies_filters no_filters r = true
               /\ e = row_to_event r.
Proof.
  cbv zeta.
  apply (queryEvents_tags_shape no_filters ten_events
           (map row_to_event (order_by_ts_desc (rows ten_events)))).
  - vm_compute. reflexivity.
  - vm_compute. left. reflexivity.
Defined.

Lemma insert_by_ts_desc_sorted (r : Row) (l : list Row) :
  Sorted row_not_older l -> Sorted row_not_older (insert_by_ts_desc r l).
Proof.
  induction l as [|x t IH]; intros Hs; simpl.
  - constructor; constructor.
  - destruct (String.leb (row_ts x) (row_ts r)) eqn:Hle.
    + constructor; [exact Hs|]. constructor. exact Hle.
    + inversion Hs as [|? ? Ht Hhd]; subst. constructor; [apply IH; exact Ht|].
      destruct t as [|y t']; simpl.
      * constructor. unfold row_not_older.
        destruct (String.leb_total (row_ts x) (row_ts r)) as [H|H]; [congruence|exact H].
      * destruct (String.leb (row_ts y) (row_ts r)).
        -- constructor. unfold row_not_older.
           destruct (String.leb_total (row_ts x) (row_ts r)) as [H|H];
             [congruence|exact H].
        -- inversion Hhd; subst. constructor. assumption.
Qed.

Lemma order_by_ts_desc_sorted (l : list Row) : Sorted row_not_older (order_by_ts_desc l).
Proof.
  unfold order_by_ts_desc. induction l as [|x t IH]; simpl.
  - constructor.
  - apply insert_by_ts_desc_sorted. exact IH.
Qed.

Lemma skipn_sorted (n : nat) :
  forall l : list Row, Sorted row_not_older l -> Sorted row_not_older (skipn n l).
Proof.
  induction n as [|n IH]; intros [|x t] Hs; simpl; auto.
  inversion Hs; subst. apply IH. assumption.
Qed.

Lemma firstn_sorted (n : nat) :
  forall l : list Row, Sorted row_not_older l -> Sorted row_not_older (firstn n l).
Proof.
  induction n as [|n IH]; intros [|x t] Hs; simpl; try constructor.
  - inversion Hs; subst. apply IH. assumption.
  - inversion Hs as [|? ? Ht Hhd]; subst.
    destruct n as [|n]; [constructor|].
    destruct t as [|y t']; [constructor|].
    inversion Hhd; subst. simpl. constructor. assumption.
Qed.

Lemma map_row_to_event_sorted (l : list Row) :
  Sorted row_not_older l -> Sorted not_older (map row_to_event l).
Proof.
  induction l as [|x t IH]; intros Hs; simpl; [constructor|].
  inversion Hs as [|? ? Ht Hhd]; subst. constructor; [apply IH; exact Ht|].
  destruct t as [|y t']; simpl; [constructor|].
  inversion Hhd; subst. constructor. assumption.
Qed.

Lemma string_leb_trans (a b c : string) :
  String.leb a b = true -> String.leb b c = true -> String.leb a c = true.
Proof.
  unfold String.leb. revert b c.
  induction a as [|x a IH]; intros [|y b] [|z c]; simpl; try discriminate; try reflexivity.
  intros Hab Hbc.
  destruct (Ascii.compare x y) eqn:Hxy; try discriminate;
    destruct (Ascii.compare y z) eqn:Hyz; try discriminate.
  - apply Ascii.compare_eq_iff in Hxy, Hyz. subst.
    rewrite ascii_compare_refl. exact (IH b c Hab Hbc).
  - apply Ascii.compare_eq_iff in Hxy. subst. rewrite Hyz. reflexivity.
  - apply Ascii.compare_eq_iff in Hyz. subst. rewrite Hxy. reflexivity.
  - unfold Ascii.compare in *. apply N.compare_lt_iff in Hxy, Hyz.
    rewrite (proj2 (N.compare_lt_iff _ _) (N.lt_trans _ _ _ Hxy Hyz)). reflexivity.
Qed.

Lemma not_older_transitive : Relations_1.Transitive not_older.
Proof.
  intros a b c Hab Hbc. unfold not_older in *.
  exact (string_leb_trans _ _ _ Hbc Hab).
Qed.

(** X11: the events [queryEvents] returns are in descending order of
    timestamp: none is older than any event that comes after it, with or
    without filters, limit and offset. *)
Theorem queryEvents_sorted (f : QueryFilters) (d : Database) (l : list OmniEvent) :
  queryEvents f d = Ok l -> StronglySorted not_older l.
Proof.
  intros Hq. apply Sorted_StronglySorted; [exact not_older_transitive|].
  revert Hq. rewrite queryEvents_spec. unfold paginate.
  pose proof (order_by_ts_desc_sorted (List.filter (satisfies_filters f) (rows d)))
    as Hsorted. fold (matching_rows f d) in Hsorted.
  assert (Hlimit : forall n rs, Sorted row_not_older rs ->
                                Sorted row_not_older (sql_limit n rs)).
  { intros n rs Hrs. unfold sql_limit. destruct (n <? 0)%Z; [exact Hrs|].
    apply firstn_sorted, Hrs. }
  destruct (supplied_number (filter_limit f)) as [n|],
           (supplied_number (filter_offset f)) as [o|];
    intros H; inversion H; subst; clear H; apply map_row_to_event_sorted.
  - apply Hlimit. unfold sql_offset. apply skipn_sorted, Hsorted.
  - apply Hlimit, Hsorted.
  - exact Hsorted.
Qed.

Lemma queryEvents_sorted_witness :
  StronglySorted not_older (map row_to_event (order_by_ts_desc (rows mixed_events))).
Proof.
  apply (queryEvents_sorted no_filters mixed_events). vm_compute. reflexivity.
Defined.

Lemma firstn_length_le (n : nat) : forall l : list Row, (List.length (firstn n l) <= n)%nat.
Proof.
  induction n as [|n IH]; intros [|x t]; simpl; try lia.
  specialize (IH t). lia.
Qed.

(** X12: with a limit that is not 0 and not negative, [queryEvents]
    returns at most that many events. *)
Theorem queryEvents_limit_bound (f : QueryFilters) (d : Database) (n : Z)
    (l : list OmniEvent) :
  filter_limit f = Some n -> (0 < n)%Z ->
  queryEvents f d = Ok l ->
  (List.length l <= Z.to_nat n)%nat.
Proof.
  intros Hl Hn. rewrite (queryEvents_page f d n).
  - intros H. inversion H; subst; clear H.
    rewrite length_map. unfold sql_limit.
    destruct (Z.ltb_spec n 0); [lia|]. apply firstn_length_le.
  - rewrite Hl. unfold supplied_number. destruct (Z.eqb_spec n 0); [lia|reflexivity].
Qed.

Lemma queryEvents_limit_bound_witness :
  (List.length (map row_to_event (map fixture_row ["3"; "2"; "1"])) <= Z.to_nat 3)%nat.
Proof.
  apply (queryEvents_limit_bound (page (Some 3%Z) (Some 6%Z)) ten_events 3%Z).
  - reflexivity.
  - reflexivity.
  - vm_compute. reflexivity.
Defined.

(** A page with a positive limit and an offset that is not negative. *)
Lemma queryEvents_window (f : QueryFilters) (d : Database) (n o : Z) :
  (0 < n)%Z -> (0 <= o)%Z ->
  queryEvents (with_limit (Some n) (with_offset (Some o) f)) d
  = Ok (map row_to_event
          (firstn (Z.to_nat n) (skipn (Z.to_nat o) (matching_rows f d)))).
Proof.
  intros Hn Ho. rewrite queryEvents_spec. unfold paginate.
  cbn [with_limit with_offset filter_limit filter_offset supplied_number].
  change (matching_rows (with_limit (Some n) (with_offset (Some o) f)) d)
    with (matching_rows f d).
  destruct (Z.eqb_spec n 0); [lia|].
  unfold sql_limit. destruct (Z.ltb_spec n 0); [lia|].
  destruct (Z.eqb_spec o 0) as [->|]; reflexivity.
Qed.

Lemma firstn_then_next (n m : nat) :
  forall l : list Row, (firstn n l ++ firstn m (skipn n l))%list = firstn (n + m) l.
Proof.
  induction n as [|n IH]; intros l; [reflexivity|].
  destruct l as [|x t]; simpl.
  - now rewrite firstn_nil.
  - now rewrite IH.
Qed.

Lemma skipn_add (n m : nat) :
  forall l : list Row, skipn (n + m) l = skipn m (skipn n l).
Proof.
  induction n as [|n IH]; intros l; [reflexivity|].
  destruct l as [|x t]; simpl; [now rewrite skipn_nil | apply IH].
Qed.

(** X13: pages that follow one another tile the result.  For limits [n]
    and [m] that are positive and an offset [o] that is not negative, all
    of them integers with [o + n + m] no more than [MAX_SAFE_INTEGER] (so
    that every number bound is an integer the engine accepts and the sums
    are exact), the page of [n] events at offset [o] followed by the page of
    [m] events at offset [o + n] is the page of [n + m] events at offset
    [o], with no event lost and none repeated. *)
Theorem queryEvents_pages_tile (f : QueryFilters) (d : Database) (n m o : Z) :
  (0 < n)%Z -> (0 < m)%Z -> (0 <= o)%Z ->
  (o + n + m <= MAX_SAFE_INTEGER)%Z ->
  exists l1 l2,
    queryEvents (with_limit (Some n) (with_offset (Some o) f)) d = Ok l1
    /\ queryEvents (with_limit (Some m) (with_offset (Some (o + n)%Z) f)) d = Ok l2
    /\ queryEvents (with_limit (Some (n + m)%Z) (with_offset (Some o) f)) d
       = Ok (l1 ++ l2)%list.
Proof.
  intros Hn Hm Ho _.
  rewrite !queryEvents_window by lia.
  eexists. eexists. split; [reflexivity|]. split; [reflexivity|].
  rewrite <- map_app. do 2 f_equal.
  rewrite !Z2Nat.inj_add by lia. rewrite skipn_add. apply eq_sym, firstn_then_next.
Qed.

Lemma queryEvents_pages_tile_witness :
  exists l1 l2,
    queryEvents (with_limit (Some 3%Z) (with_offset (Some 3%Z) no_filters)) ten_events
      = Ok l1
    /\ queryEvents (with_limit (Some 3%Z) (with_offset (Some (3 + 3)%Z) no_filters))
         ten_events = Ok l2
    /\ queryEvents (with_limit (Some (3 + 3)%Z) (with_offset (Some 3%Z) no_filters))
         ten_events = Ok (l1 ++ l2)%list.
Proof. apply queryEvents_pages_tile; unfold MAX_SAFE_INTEGER; lia. Defined.

End QueryResults.

(** ** Tags and rows, decoded and encoded again *)

Section Recoding.

Lemma join_split (s : string) : JsString.join_comma (JsString.split_comma s) = s.
Proof.
  induction s as [|c s IH]; [reflexivity|].
  cbn [JsString.split_comma].
  destruct (JsString.split_comma s) as [|t more] eqn:Hsplit;
    [exfalso; exact (split_comma_not_nil s Hsplit)|].
  destruct (Ascii.eqb_spec c ",") as [->|Hc].
  - change (JsString.join_comma (EmptyString :: t :: more))
      with (String "," (JsString.join_comma (t :: more))).
    now rewrite IH.
  - destruct more as [|u more].
    + cbn in *. now rewrite IH.
    + change (JsString.join_comma (String c t :: u :: more))
        with (String c (t +:+ String "," (JsString.join_comma (u :: more)))).
      change (JsString.join_comma (t :: u :: more))
        with (t +:+ String "," (JsString.join_comma (u :: more))) in IH.
      now rewrite IH.
Qed.

Lemma JSON_stringify_parse : forall j : Json, JSON_stringify (JSON_parse j) = Some j.
Proof.
  fix IH 1. intros [ |b|z|s|items|ms|num den]; try reflexivity.
  - rewrite JSON_parse_array, JSON_stringify_array. do 2 f_equal.
    induction items as [|x xs IHl]; [reflexivity|].
    cbn [map]. unfold stringify_element at 1. rewrite (IH x), IHl. reflexivity.
  - rewrite JSON_parse_object, JSON_stringify_object. do 2 f_equal.
    induction ms as [|[k x] xs IHl]; [reflexivity|].
    cbn [parse_members]. rewrite stringify_members_cons, (IH x), IHl. reflexivity.
Qed.

(** X14: an event read from a row binds to that very row again: decoding
    loses nothing of a stored row whose tags column is not the empty text
    (a column [writeEventToDb] never writes). *)
Theorem bind_event_row_to_event (r : Row) :
  row_event_tags r <> Some EmptyString ->
  bind_event (row_to_event r) = Some r.
Proof.
  intros Htags. unfold bind_event. cbn [data row_to_event].
  rewrite JSON_stringify_parse. cbn.
  assert (Ht : tags_column (tags_of_column (row_event_tags r)) = row_event_tags r).
  { unfold tags_of_column. destruct (row_event_tags r) as [s|]; [|reflexivity].
    destruct (JsString.truthy s) eqn:Hs.
    - cbn. rewrite join_split, Hs. reflexivity.
    - exfalso. apply Htags. f_equal. unfold JsString.truthy in Hs.
      apply negb_false_iff, String.eqb_eq in Hs. exact Hs. }
  rewrite Ht. destruct r. cbn.
  destruct row_machine_hostname0, row_context_session_id0, row_context_actor0,
    row_context_phase0, row_source_version0, row_parent_event_id0,
    row_parent_trace_id0, row_parent_span_id0; reflexivity.
Qed.

Lemma bind_event_row_to_event_witness :
  bind_event (row_to_event (mixed_row "A" "metric" "S1" "1"))
  = Some (mixed_row "A" "metric" "S1" "1").
Proof. apply bind_event_row_to_event. discriminate. Defined.

Lemma join_comma_empty (l : list string) :
  JsString.join_comma l = EmptyString <-> l = [] \/ l = [EmptyString].
Proof.
  split.
  - destruct l as [|a [|b t]]; cbn [JsString.join_comma].
    + auto.
    + intros ->. auto.
    + destruct a; discriminate.
  - intros [->| ->]; reflexivity.
Qed.

Lemma truthy_not_empty (s : string) : JsString.truthy s = true <-> s <> EmptyString.
Proof. destruct s; cbn; split; congruence. Qed.

(** X15: the tags column [writeEventToDb] binds.  Tags that are absent,
    the empty list and the list of one empty tag are stored as NULL; every
    other list is stored as its tags joined by commas, a text with at least
    one character.  So the column is never the empty text. *)
Theorem bind_event_tags_column (e : OmniEvent) (r : Row) :
  bind_event e = Some r ->
  (event_tags (event e) = js_undefined \/ event_tags (event e) = js_null
   \/ event_tags (event e) = js_val [] \/ event_tags (event e) = js_val [EmptyString]
   -> row_event_tags r = None)
  /\ (forall l, event_tags (event e) = js_val l -> l <> [] -> l <> [EmptyString] ->
        row_event_tags r = Some (JsString.join_comma l)
        /\ JsString.join_comma l <> EmptyString)
  /\ row_event_tags r <> Some EmptyString.
Proof.
  intros Hb. apply bind_event_fields in Hb as (_ & _ & _ & _ & _ & _ & _ & Htags & _).
  rewrite Htags. clear Htags. split; [|split].
  - intros [-> | [-> | [-> | ->]]]; reflexivity.
  - intros l -> Hnil Hone.
    assert (Hj : JsString.join_comma l <> EmptyString).
    { intros Hempty. apply join_comma_empty in Hempty as [?|?]; contradiction. }
    split; [|exact Hj]. cbn [tags_column].
    apply truthy_not_empty in Hj. rewrite Hj. reflexivity.
  - unfold tags_column.
    destruct (event_tags (event e)) as [| |l]; try discriminate.
    destruct (JsString.truthy (JsString.join_comma l)) eqn:Hj; [|discriminate].
    intros Heq. inversion Heq as [Hempty]. rewrite Hempty in Hj. discriminate.
Qed.

Lemma bind_event_tags_column_witness :
  exists r, bind_event tagged_event = Some r
    /\ row_event_tags r = Some "a,b".
Proof.
  eexists. split; [vm_compute; reflexivity|].
  refine (proj1 (proj1 (proj2 (bind_event_tags_column tagged_event _ _))
                   ["a"; "b"] _ _ _)).
  - vm_compute. reflexivity.
  - reflexivity.
  - discriminate.
  - discriminate.
Defined.

(** X16: an error event comes back tagged ["error"] followed by the pieces
    of the error type between its commas: the tags are
    [["error", errorType]] again exactly when the type has no comma. *)
Theorem writeError_tags_read_back (this : Observability) (errorType message : string)
    (options : ErrorOptions) (rd : WriteReading) (d d1 : Database) (id : string) :
  writeError this errorType message options rd d = (Ok id, d1) ->
  exists l e,
    queryEvents no_filters d1 = Ok l /\ In e l /\ event_id e = id
    /\ event_kind (event e) = "error"
    /\ event_tags (event e) = js_val ("error" :: JsString.split_comma errorType)
    /\ (comma_free errorType = true -> event_tags (event e) = js_val ["error"; errorType]).
Proof.
  intros H. unfold writeError in H.
  apply typed_writer_stored_row in H as [Hid Hrows].
  eexists. eexists. split; [apply queryEvents_no_filters|].
  split.
  { apply in_map, (proj2 (in_order_by_ts_desc _ _)). rewrite Hrows.
    apply in_or_app. right. left. reflexivity. }
  cbn. split; [symmetry; exact Hid|]. split; [reflexivity|].
  split; [reflexivity|].
  intros Hfree. rewrite (split_comma_free errorType Hfree). reflexivity.
Qed.

Lemma writeError_tags_read_back_witness :
  let rd := sample_reading 1700000000000 "2023-11-14T22:13:20.000Z" in
  let d1 := snd (writeError sample_instance "db,timeout" "no answer" plain_error_options
                   rd empty_database) in
  exists l e,
    queryEvents no_filters d1 = Ok l /\ In e l
    /\ event_id e = "000000LOYW3V280123456789AB"
    /\ event_kind (event e) = "error"
    /\ event_tags (event e) = js_val ("error" :: JsString.split_comma "db,timeout")
    /\ (comma_free "db,timeout" = true
        -> event_tags (event e) = js_val ["error"; "db,timeout"]).
Proof.
  cbv zeta.
  apply (writeError_tags_read_back sample_instance "db,timeout" "no answer"
           plain_error_options
           (sample_reading 1700000000000 "2023-11-14T22:13:20.000Z") empty_database).
  vm_compute. reflexivity.
Defined.

End Recoding.

(** ** The identity file and the construction of the instance *)

Section Construction.

Lemma trim_end_no_space (s : string) :
  string_forall not_space s = true -> JsString.trim_end s = s.
Proof.
  induction s as [|c s IH]; [reflexivity|].
  cbn [string_forall JsString.trim_end]. intros H.
  apply andb_true_iff in H as [Hc Hs]. rewrite (IH Hs).
  unfold not_space in Hc. apply negb_true_iff in Hc. rewrite Hc.
  destruct s; reflexivity.
Qed.

Lemma trim_no_space (s : string) :
  string_forall not_space s = true -> JsString.trim s = s.
Proof.
  intros H. unfold JsString.trim.
  assert (Hstart : JsString.trim_start s = s).
  { destruct s as [|c s]; [reflexivity|]. cbn in *.
    apply andb_true_iff in H as [Hc _].
    unfold not_space in Hc. apply negb_true_iff in Hc. now rewrite Hc. }
  rewrite Hstart. apply trim_end_no_space, H.
Qed.

Lemma string_forall_append (p : ascii -> bool) (a b : string) :
  string_forall p (a +:+ b) = string_forall p a && string_forall p b.
Proof.
  induction a as [|c a IH]; simpl; [reflexivity|].
  rewrite IH. apply andb_assoc.
Qed.

Lemma string_forall_impl (p q : ascii -> bool) (s : string) :
  (forall c, p c = true -> q c = true) ->
  string_forall p s = true -> string_forall q s = true.
Proof.
  intros Hpq. induction s as [|c s IH]; simpl; [reflexivity|].
  intros H. apply andb_true_iff in H as [Hc Hs].
  rewrite (Hpq c Hc), (IH Hs). reflexivity.
Qed.

Lemma hex_lower_not_space (c : ascii) : is_hex_lower c = true -> not_space c = true.
Proof.
  destruct c as [[] [] [] [] [] [] [] []]; vm_compute; intros H;
    reflexivity || discriminate H.
Qed.

(** A generated machine identifier has no white space to trim. *)
Lemma generated_id_trim (rnd : list Byte.byte) :
  JsString.trim ("constellation-" +:+ JsString.substring0 6 (JsString.hex rnd))
  = "constellation-" +:+ JsString.substring0 6 (JsString.hex rnd).
Proof.
  apply trim_no_space. rewrite string_forall_append. apply andb_true_iff. split.
  - reflexivity.
  - apply (string_forall_impl is_hex_lower); [apply hex_lower_not_space|].
    apply substring0_forall, hex_is_hex.
Qed.

(** What [initializeMachineId] leaves on disk when there is no override:
    an identity file whose trimmed content is the identifier returned. *)
Lemma initializeMachineId_persisted (idFile : string) (rnd : list Byte.byte)
    (w w1 : World) (mid : string) :
  supplied (env_MACHINE_ID w) = None ->
  initializeMachineId idFile rnd w = (Ok mid, w1) ->
  env_MACHINE_ID w1 = env_MACHINE_ID w
  /\ exists content, files w1 !! idFile = Some content /\ JsString.trim content = mid.
Proof.
  intros Henv H. rewrite initializeMachineId_no_override in H by exact Henv.
  destruct (files w !! idFile) as [content|] eqn:Hfile.
  - inversion H; subst. split; [reflexivity|]. exists content. auto.
  - cbv zeta in H. destruct (creatable w idFile); [|discriminate].
    inversion H; subst. split; [reflexivity|]. eexists. split.
    + cbn. apply lookup_insert_eq.
    + apply generated_id_trim.
Qed.

(** X17: resolving the machine identity again gives the same identifier
    and changes nothing: the identifier is stable from the first successful
    resolution on, whatever random bytes later calls would draw. *)
Theorem initializeMachineId_stable (idFile : string) (rnd rnd' : list Byte.byte)
    (w w1 : World) (mid : string) :
  initializeMachineId idFile rnd w = (Ok mid, w1) ->
  initializeMachineId idFile rnd' w1 = (Ok mid, w1).
Proof.
  intros H. destruct (supplied (env_MACHINE_ID w)) as [v|] eqn:Henv.
  - destruct (initializeMachineId_override idFile rnd w v Henv) as [_ Heq].
    rewrite Heq in H. inversion H; subst.
    apply (initializeMachineId_override idFile rnd' w1 mid Henv).
  - destruct (initializeMachineId_persisted idFile rnd w w1 mid Henv H)
      as (Henv1 & content & Hfile & Htrim).
    rewrite initializeMachineId_no_override by (rewrite Henv1; exact Henv).
    rewrite Hfile, Htrim. reflexivity.
Qed.

Lemma initializeMachineId_stable_witness :
  let w1 := set_files {[ "/srv/data/.machine_id" := "constellation-0a1b2c" ]}
              (fresh_world None) in
  initializeMachineId "/srv/data/.machine_id" [Byte.xff; Byte.xee; Byte.xdd] w1
  = (Ok "constellation-0a1b2c", w1).
Proof.
  cbv zeta.
  apply (initializeMachineId_stable "/srv/data/.machine_id" three_bytes _
           (fresh_world None)).
  vm_compute. reflexivity.
Defined.

Lemma open_database_effect (path : string) (w w1 : World) :
  open_database path w = (Ok tt, w1) ->
  files w1 = files w /\ env_MACHINE_ID w1 = env_MACHINE_ID w
  /\ databases w1 !! path <> None
  /\ (forall p t, databases w !! p = Some t -> databases w1 !! p = Some t).
Proof.
  unfold open_database. intros H.
  destruct (databases w !! path) as [t|] eqn:Hdb.
  - inversion H; subst. repeat split; auto. congruence.
  - destruct (creatable w path); [|discriminate]. inversion H; subst. cbn.
    repeat split.
    + rewrite lookup_insert_eq. discriminate.
    + intros p t Hp. rewrite lookup_insert_ne; [exact Hp|]. congruence.
Qed.

(** X18: after the first successful initialization without an override,
    both persisted files are there: the identity file of the data
    directory, whose trimmed content is the machine identifier of the
    instance, and the database file of the instance. *)
Theorem initializeObservability_persists (dir : option string) (rnd : list Byte.byte)
    (w w1 : World) (ref : nat) :
  observabilityInstance w = None ->
  supplied (env_MACHINE_ID w) = None ->
  initializeObservability dir rnd w = (Ok ref, w1) ->
  exists o content,
    heap w1 !! ref = Some o
    /\ machineIdFile o = path_resolve (dataDir o) ".machine_id"
    /\ db o = path_resolve (dataDir o) "observability.db"
    /\ files w1 !! machineIdFile o = Some content
    /\ JsString.trim content = getMachineId o
    /\ databases w1 !! db o <> None.
Proof.
  intros Hnone Henv H. unfold initializeObservability in H. rewrite Hnone in H.
  destruct (new_Observability (default "data" dir) rnd w) as [[r|e] w2] eqn:Hnew;
    [|discriminate].
  inversion H; subst; clear H.
  unfold new_Observability, eff_bind in Hnew.
  destruct (initializeMachineId _ rnd w) as [[mid|e] wa] eqn:Hmid; [|discriminate].
  destruct (open_database _ wa) as [[[]|e] wb] eqn:Hopen; [|discriminate].
  inversion Hnew; subst; clear Hnew.
  destruct (initializeMachineId_persisted _ rnd w wa mid Henv Hmid)
    as (_ & content & Hfile & Htrim).
  destruct (open_database_effect _ wa wb Hopen) as (Hfiles & _ & Hdb & _).
  eexists. exists content. cbn.
  split; [apply list_lookup_middle; reflexivity|]. cbn.
  split; [reflexivity|]. split; [reflexivity|].
  split; [rewrite Hfiles; exact Hfile|]. split; [exact Htrim | exact Hdb].
Qed.

Lemma initializeObservability_persists_witness :
  exists o content,
    heap world_after_first_call !! 0%nat = Some o
    /\ machineIdFile o = path_resolve (dataDir o) ".machine_id"
    /\ db o = path_resolve (dataDir o) "observability.db"
    /\ files world_after_first_call !! machineIdFile o = Some content
    /\ JsString.trim content = getMachineId o
    /\ databases world_after_first_call !! db o <> None.
Proof.
  apply (initializeObservability_persists (Some "logs") three_bytes (fresh_world None)).
  - reflexivity.
  - reflexivity.
  - vm_compute. reflexivity.
Defined.

Lemma initializeMachineId_keeps (idFile : string) (rnd : list Byte.byte) (w w1 : World)
    (res : Result string) :
  initializeMachineId idFile rnd w = (res, w1) ->
  databases w1 = databases w
  /\ (forall p c, files w !! p = Some c -> files w1 !! p = Some c).
Proof.
  intros H. destruct (supplied (env_MACHINE_ID w)) as [v|] eqn:Henv.
  - destruct (initializeMachineId_override idFile rnd w v Henv) as [_ Heq].
    rewrite Heq in H. inversion H; subst. auto.
  - rewrite initializeMachineId_no_override in H by exact Henv.
    destruct (files w !! idFile) as [content|] eqn:Hfile; [inversion H; subst; auto|].
    cbv zeta in H. destruct (creatable w idFile); inversion H; subst; [|auto].
    split; [reflexivity|]. intros p c Hp. cbn.
    rewrite lookup_insert_ne; [exact Hp|]. congruence.
Qed.

Lemma open_database_keeps (path : string) (w w1 : World) (res : Result unit) :
  open_database path w = (res, w1) ->
  files w1 = files w
  /\ (forall p t, databases w !! p = Some t -> databases w1 !! p = Some t).
Proof.
  unfold open_database. intros H.
  destruct (databases w !! path) as [t|] eqn:Hdb; [inversion H; subst; auto|].
  destruct (creatable w path); inversion H; subst; [|auto].
  split; [reflexivity|]. intros p t Hp. cbn.
  rewrite lookup_insert_ne; [exact Hp|]. congruence.
Qed.

Lemma new_Observability_keeps (dir : string) (rnd : list Byte.byte) (w w1 : World)
    (res : Result nat) :
  new_Observability dir rnd w = (res, w1) ->
  (forall p c, files w !! p = Some c -> files w1 !! p = Some c)
  /\ (forall p t, databases w !! p = Some t -> databases w1 !! p = Some t)
  /\ (forall i o, heap w !! i = Some o -> heap w1 !! i = Some o)
  /\ observabilityInstance w1 = observabilityInstance w
  /\ (forall e, res = Throw e -> heap w1 = heap w).
Proof.
  unfold new_Observability, eff_bind. intros H.
  destruct (initializeMachineId _ rnd w) as [[mid|e] wa] eqn:Hmid.
  - destruct (initializeMachineId_keeps _ _ _ _ _ Hmid) as (Hdb_a & Hfiles_a).
    destruct (initializeMachineId_frame _ _ _ _ _ Hmid) as (Hheap_a & _ & Hinst_a).
    destruct (open_database _ wa) as [[[]|e] wb] eqn:Hopen.
    + destruct (open_database_keeps _ _ _ _ Hopen) as (Hfiles_b & Hdb_b).
      destruct (open_database_frame _ _ _ _ Hopen) as (Hheap_b & _ & Hinst_b).
      inversion H; subst; clear H. cbn. repeat split.
      * intros p c Hp. rewrite Hfiles_b. auto.
      * intros p t Hp. apply Hdb_b. rewrite Hdb_a. exact Hp.
      * intros i o Hi. rewrite Hheap_b, Hheap_a. apply lookup_app_l_Some. exact Hi.
      * congruence.
      * discriminate.
    + destruct (open_database_keeps _ _ _ _ Hopen) as (Hfiles_b & Hdb_b).
      destruct (open_database_frame _ _ _ _ Hopen) as (Hheap_b & _ & Hinst_b).
      inversion H; subst; clear H. repeat split.
      * intros p c Hp. rewrite Hfiles_b. auto.
      * intros p t Hp. apply Hdb_b. rewrite Hdb_a. exact Hp.
      * intros i o Hi. rewrite Hheap_b, Hheap_a. exact Hi.
      * congruence.
      * intros _ _. congruence.
  - destruct (initializeMachineId_keeps _ _ _ _ _ Hmid) as (Hdb_a & Hfiles_a).
    destruct (initializeMachineId_frame _ _ _ _ _ Hmid) as (Hheap_a & _ & Hinst_a).
    inversion H; subst; clear H. repeat split; auto.
    + intros p t Hp. rewrite Hdb_a. exact Hp.
    + intros i o Hi. rewrite Hheap_a. exact Hi.
Qed.

(** X19: initialization never destroys what is there: whatever its
    outcome, every file, every database with its rows and every instance
    that existed before [initializeObservability] is still there, unchanged,
    after it. *)
Theorem initializeObservability_keeps_data (dir : option string) (rnd : list Byte.byte)
    (w w1 : World) (res : Result nat) :
  initializeObservability dir rnd w = (res, w1) ->
  (forall p c, files w !! p = Some c -> files w1 !! p = Some c)
  /\ (forall p t, databases w !! p = Some t -> databases w1 !! p = Some t)
  /\ (forall i o, heap w !! i = Some o -> heap w1 !! i = Some o).
Proof.
  unfold initializeObservability. intros H.
  destruct (observabilityInstance w); [inversion H; subst; auto|].
  destruct (new_Observability (default "data" dir) rnd w) as [[r|e] w2] eqn:Hnew;
    destruct (new_Observability_keeps _ _ _ _ _ Hnew) as (Hf & Hd & Hh & _);
    inversion H; subst; auto.
Qed.

Lemma initializeObservability_keeps_data_witness :
  let w1 := snd (initializeObservability None [Byte.xff; Byte.xee; Byte.xdd]
                   restarted_world) in
  (forall p c, files restarted_world !! p = Some c -> files w1 !! p = Some c)
  /\ (forall p t, databases restarted_world !! p = Some t -> databases w1 !! p = Some t)
  /\ (forall i o, heap restarted_world !! i = Some o -> heap w1 !! i = Some o).
Proof.
  cbv zeta.
  apply (initializeObservability_keeps_data None [Byte.xff; Byte.xee; Byte.xdd]
           restarted_world _ (Ok 0%nat)).
  vm_compute. reflexivity.
Defined.

(** X20: when the construction fails, the singleton stays unset and no
    instance is allocated, so the failure is not remembered: the next call
    constructs again instead of returning a half built instance. *)
Theorem initializeObservability_failure (dir : option string) (rnd : list Byte.byte)
    (w w1 : World) (e : Error) :
  initializeObservability dir rnd w = (Throw e, w1) ->
  observabilityInstance w = None
  /\ observabilityInstance w1 = None
  /\ heap w1 = heap w
  /\ forall dir' rnd',
       initializeObservability dir' rnd' w1
       = match new_Observability (default "data" dir') rnd' w1 with
         | (Ok ref, w2) => (Ok ref, set_instance (Some ref) w2)
         | (Throw e', w2) => (Throw e', w2)
         end.
Proof.
  unfold initializeObservability. intros H.
  destruct (observabilityInstance w) eqn:Hinst; [discriminate|].
  destruct (new_Observability (default "data" dir) rnd w) as [[r|e'] w2] eqn:Hnew;
    [discriminate|].
  inversion H; subst; clear H.
  destruct (new_Observability_keeps _ _ _ _ _ Hnew) as (_ & _ & _ & Hi & Hheap).
  assert (Hnone : observabilityInstance w1 = None) by congruence.
  split; [reflexivity|]. split; [exact Hnone|]. split; [exact (Hheap e eq_refl)|].
  intros dir' rnd'. rewrite Hnone. reflexivity.
Qed.

Lemma initializeObservability_failure_witness :
  observabilityInstance read_only_world = None
  /\ observabilityInstance read_only_world = None
  /\ heap read_only_world = heap read_only_world
  /\ forall dir' rnd',
       initializeObservability dir' rnd' read_only_world
       = match new_Observability (default "data" dir') rnd' read_only_world with
         | (Ok ref, w2) => (Ok ref, set_instance (Some ref) w2)
         | (Throw e', w2) => (Throw e', w2)
         end.
Proof.
  apply (initializeObservability_failure None three_bytes read_only_world read_only_world
           FsNoEntry).
  vm_compute. reflexivity.
Defined.

Lemma open_database_disk (path : string) (w w1 : World) :
  open_database path w = (Ok tt, w1) ->
  files w1 = files w
  /\ is_Some (databases w1 !! path)
  /\ (forall p, p <> path -> databases w1 !! p = databases w !! p)
  /\ (forall p t, databases w !! p = Some t -> databases w1 !! p = Some t).
Proof.
  unfold open_database. intros H.
  destruct (databases w !! path) as [t|] eqn:Hdb.
  - inversion H; subst. split; [reflexivity|]. split; [|auto].
    rewrite Hdb. eexists. reflexivity.
  - destruct (creatable w path); [|discriminate]. inversion H; subst. cbn.
    split; [reflexivity|]. split; [|split].
    + rewrite lookup_insert_eq. eexists. reflexivity.
    + intros p Hp. apply lookup_insert_ne. congruence.
    + intros p t Hp. rewrite lookup_insert_ne; [exact Hp|]. congruence.
Qed.

(** X21: with an override in the environment the instance takes it as its
    machine identifier, and the identity file is left alone: the text files
    are those there were, so an identity file on disk is neither read nor
    replaced and none is created.  The one file the initialization may
    create is the database of the data directory: the files on disk after
    it are those before it and that database, and a database that was there
    keeps its table. *)
Theorem initializeObservability_override (dir : option string) (rnd : list Byte.byte)
    (w w1 : World) (ref : nat) (v : string) :
  observabilityInstance w = None ->
  supplied (env_MACHINE_ID w) = Some v ->
  initializeObservability dir rnd w = (Ok ref, w1) ->
  let dbFile :=
    path_resolve (path_resolve (cwd w) (default "data" dir)) "observability.db" in
  (exists o, heap w1 !! ref = Some o /\ getMachineId o = v /\ db o = dbFile)
  /\ files w1 = files w
  /\ (forall p, on_disk w1 p <-> on_disk w p \/ p = dbFile)
  /\ (forall p t, databases w !! p = Some t -> databases w1 !! p = Some t).
Proof.
  intros Hnone Henv H dbFile. unfold initializeObservability in H. rewrite Hnone in H.
  destruct (new_Observability (default "data" dir) rnd w) as [[r|e] w2] eqn:Hnew;
    [|discriminate].
  inversion H; subst; clear H.
  unfold new_Observability, eff_bind in Hnew.
  destruct (initializeMachineId_override
              (path_resolve (path_resolve (cwd w) (default "data" dir)) ".machine_id")
              rnd w v Henv) as [_ Hmid].
  rewrite Hmid in Hnew. fold dbFile in Hnew.
  destruct (open_database dbFile w) as [[[]|e] wb] eqn:Hopen; [|discriminate].
  destruct (open_database_disk _ _ _ Hopen) as (Hfiles & Hnew_db & Hother & Hkept).
  inversion Hnew; subst; clear Hnew. cbn. split; [|split; [exact Hfiles|split]].
  - eexists. split; [apply list_lookup_middle; reflexivity|]. split; reflexivity.
  - intros p. unfold on_disk. cbn. rewrite Hfiles.
    destruct (decide (p = dbFile)) as [->|Hne].
    + split; [auto|]. intros _. right. exact Hnew_db.
    + rewrite (Hother p Hne). split; [auto|]. intros [Hp|Hp]; [exact Hp|contradiction].
  - exact Hkept.
Qed.

Lemma initializeObservability_override_witness :
  let w1 := snd (initializeObservability None three_bytes overridden_world) in
  (exists o, heap w1 !! 0%nat = Some o /\ getMachineId o = "box-7"
             /\ db o = "/srv/data/observability.db")
  /\ files w1 = files overridden_world
  /\ (forall p, on_disk w1 p <-> on_disk overridden_world p \/ p = "/srv/data/observability.db")
  /\ (forall p t, databases overridden_world !! p = Some t -> databases w1 !! p = Some t).
Proof.
  cbv zeta.
  apply (initializeObservability_override None three_bytes overridden_world).
  - reflexivity.
  - reflexivity.
  - vm_compute. reflexivity.
Defined.

End Construction.
